(** * OpenSLO Studio: the validation and generation core

    A shallow embedding of [validateState] (src/App.tsx) and of
    [generateYaml] (utils/yamlGenerator.ts), together with the parts of
    the JavaScript runtime they rely on: strings as sequences of UTF-16
    code units, [String.prototype.trim], [split]/[join], the two regular
    expressions of the source with a backtracking matcher, IEEE-754
    binary64 numbers with their comparison and [Number::toString]. *)

From Stdlib Require Import ZArith NArith List String Ascii Bool Lia.
From Stdlib Require Import Floats.SpecFloat.
From stdpp Require Import gmap strings list fin_maps.

(** ** JavaScript strings *)

(** A string value is a finite sequence of UTF-16 code units. *)
Abbreviation char := N.
Abbreviation jsstring := (list N).

(** Literals of the source text are written as ASCII strings. *)
Definition str (s : string) : jsstring :=
  map N_of_ascii (list_ascii_of_string s).

Definition nl : char := 10%N.
Definition eol : jsstring := [nl].
Definition dquote : jsstring := [34%N].

(** ECMAScript LineTerminator: LF, CR, LS, PS. *)
Definition isLineTerminator (c : char) : bool :=
  (c =? 10)%N || (c =? 13)%N || (c =? 8232)%N || (c =? 8233)%N.

(** ECMAScript WhiteSpace together with LineTerminator: the set stripped
    by [trim] and matched by the class escape [\s]. *)
Definition isSpace (c : char) : bool :=
  (c =? 9)%N || (c =? 10)%N || (c =? 11)%N || (c =? 12)%N || (c =? 13)%N
  || (c =? 32)%N || (c =? 160)%N || (c =? 5760)%N
  || ((8192 <=? c)%N && (c <=? 8202)%N)
  || (c =? 8232)%N || (c =? 8233)%N || (c =? 8239)%N || (c =? 8287)%N
  || (c =? 12288)%N || (c =? 65279)%N.

Fixpoint trimStart (s : jsstring) : jsstring :=
  match s with
  | c :: t => if isSpace c then trimStart t else s
  | [] => []
  end.

Definition trimEnd (s : jsstring) : jsstring := rev (trimStart (rev s)).

(** [String.prototype.trim] *)
Definition trim (s : jsstring) : jsstring := trimEnd (trimStart s).

(** ToBoolean on a string: the empty string is the only falsy one. *)
Definition truthy (s : jsstring) : bool :=
  match s with [] => false | _ :: _ => true end.

(** [s.split(sep)] for a one-unit separator: never the empty array. *)
Fixpoint split (sep : char) (s : jsstring) : list jsstring :=
  match s with
  | [] => [[]]
  | c :: t =>
      if (c =? sep)%N then [] :: split sep t
      else match split sep t with
           | l :: ls => (c :: l) :: ls
           | [] => [[c]]
           end
  end.

(** [parts.join(sep)] *)
Fixpoint join (sep : jsstring) (parts : list jsstring) : jsstring :=
  match parts with
  | [] => []
  | [p] => p
  | p :: ps => p ++ sep ++ join sep ps
  end.

(** [s.split('\n').map(line => prefix + line).join('\n')] *)
Definition indentLines (prefix : jsstring) (s : jsstring) : jsstring :=
  join eol (map (fun line => prefix ++ line) (split nl s)).

Fixpoint startsWith (p s : jsstring) : bool :=
  match p, s with
  | [], _ => true
  | a :: p', b :: s' => (a =? b)%N && startsWith p' s'
  | _ :: _, [] => false
  end.

(** [s.includes(p)] *)
Fixpoint includes (p s : jsstring) : bool :=
  startsWith p s ||
  match s with
  | [] => false
  | _ :: t => includes p t
  end.

(** The lines of a text, as a reader of the document sees them. *)
Definition lines (s : jsstring) : list jsstring := split nl s.

(** ** Regular expressions

    The fragment of ECMAScript patterns used by the source: character
    classes, a greedy star over a class, an optional group, the
    assertions [^] and [$], and concatenation.  Matching is the
    backtracking procedure of the language: alternatives are tried in
    priority order against a continuation. *)

Inductive regex : Type :=
| Class (p : char -> bool)
| StarClass (p : char -> bool)
| Bol
| Eol
| Cat (r1 r2 : regex)
| Opt (r : regex).

(** Flags of a pattern that matter here. *)
Record flags : Type := { multiline : bool }.

(** A position in the subject: the unit just before it (if any) and the
    rest of the input. *)
Definition atLineStart (f : flags) (prev : option char) : bool :=
  match prev with
  | None => true
  | Some c => multiline f && isLineTerminator c
  end.

Definition atLineEnd (f : flags) (s : jsstring) : bool :=
  match s with
  | [] => true
  | c :: _ => multiline f && isLineTerminator c
  end.

Section Matcher.
Context {R : Type}.

(** Greedy [p*]: take one more unit when possible, fall back to the
    continuation otherwise. *)
Fixpoint matchStar (p : char -> bool) (prev : option char) (s : jsstring)
    (k : option char -> jsstring -> option R) : option R :=
  match s with
  | c :: t =>
      if p c then
        match matchStar p (Some c) t k with
        | Some r => Some r
        | None => k prev s
        end
      else k prev s
  | [] => k prev s
  end.

Fixpoint matchRe (f : flags) (r : regex) (prev : option char) (s : jsstring)
    (k : option char -> jsstring -> option R) : option R :=
  match r with
  | Class p =>
      match s with
      | c :: t => if p c then k (Some c) t else None
      | [] => None
      end
  | StarClass p => matchStar p prev s k
  | Bol => if atLineStart f prev then k prev s else None
  | Eol => if atLineEnd f s then k prev s else None
  | Cat r1 r2 => matchRe f r1 prev s (fun prev' s' => matchRe f r2 prev' s' k)
  | Opt r1 =>
      match matchRe f r1 prev s k with
      | Some x => Some x
      | None => k prev s
      end
  end.
End Matcher.

(** A match attempt at one position; the result is the input left after
    the match. *)
Definition matchAt (f : flags) (r : regex) (prev : option char) (s : jsstring)
  : option jsstring :=
  matchRe f r prev s (fun _ rest => Some rest).

(** [re.test(s)]: some position of the subject starts a match. *)
Fixpoint searchFrom (f : flags) (r : regex) (prev : option char) (s : jsstring)
  : bool :=
  match matchAt f r prev s with
  | Some _ => true
  | None =>
      match s with
      | [] => false
      | c :: t => searchFrom f r (Some c) t
      end
  end.

Definition test (f : flags) (r : regex) (s : jsstring) : bool :=
  searchFrom f r None s.

(** [s.replace(re, '')] with the [g] flag: every match, found from left
    to right without overlap, is deleted.  [skip] counts the units of
    the current match still to be dropped; a match of length zero
    deletes nothing and the scan moves on by one unit. *)
Fixpoint deleteFrom (f : flags) (r : regex) (prev : option char)
    (s : jsstring) (skip : nat) : jsstring :=
  match s with
  | [] => []
  | c :: t =>
      match skip with
      | S n => deleteFrom f r (Some c) t n
      | O =>
          match matchAt f r prev s with
          | Some rest =>
              match length s - length rest with
              | S n => deleteFrom f r (Some c) t n
              | O => c :: deleteFrom f r (Some c) t 0
              end
          | None => c :: deleteFrom f r (Some c) t 0
          end
      end
  end.

Definition deleteAll (f : flags) (r : regex) (s : jsstring) : jsstring :=
  deleteFrom f r None s 0.

(** [/^[a-z0-9]([-a-z0-9]*[a-z0-9])?$/] *)
Definition isLowerAlnum (c : char) : bool :=
  ((97 <=? c)%N && (c <=? 122)%N) || ((48 <=? c)%N && (c <=? 57)%N).

Definition isLowerAlnumDash (c : char) : bool :=
  (c =? 45)%N || isLowerAlnum c.

Definition noFlags : flags := {| multiline := false |}.
Definition flagsGM : flags := {| multiline := true |}.

Definition k8sNameRegex : regex :=
  Cat Bol
    (Cat (Class isLowerAlnum)
       (Cat (Opt (Cat (StarClass isLowerAlnumDash) (Class isLowerAlnum)))
          Eol)).

(** [/^\s*\n/gm] *)
Definition blankLineRegex : regex :=
  Cat Bol (Cat (StarClass isSpace) (Class (fun c => (c =? 10)%N))).

(** ** JavaScript numbers

    A Number is an IEEE-754 binary64 value; [spec_float] is the
    Standard Library's inductive description of those (sign, mantissa,
    exponent, with the zeros, the infinities and NaN). *)

Definition number : Type := spec_float.

Definition NaN : number := S754_nan.
Definition ofZ (z : Z) : number := binary_normalize 53 1024 z 0 false.

(** The literal [m / 10^d] (as in [0.999] = [decimal 999 3]): the
    nearest binary64 value, obtained by one correctly rounded division
    of two exactly represented integers. *)
Definition decimal (m : Z) (d : nat) : number :=
  SFdiv 53 1024 (ofZ m) (ofZ (10 ^ Z.of_nat d)).

Definition num_lt (x y : number) : bool := SFltb x y.
Definition num_gt (x y : number) : bool := SFltb y x.
Definition num_le (x y : number) : bool := SFleb x y.

(** ToBoolean on a Number: [+0], [-0] and [NaN] are falsy. *)
Definition numTruthy (x : number) : bool :=
  match x with
  | S754_zero _ | S754_nan => false
  | _ => true
  end.

(** [Number.isInteger] *)
Definition isInteger (x : number) : bool :=
  match x with
  | S754_zero _ => true
  | S754_finite _ m e =>
      (0 <=? e)%Z || (Z.pos m mod 2 ^ (- e) =? 0)%Z
  | _ => false
  end.

(** *** Number::toString (radix 10)

    The digits are the shortest decimal [s * 10^(n-k)] (with [k] digits
    in [s]) that rounds to the number, the closest one to the number
    when several have that length. *)

Fixpoint uintChars (u : Decimal.uint) : jsstring :=
  match u with
  | Decimal.Nil => []
  | Decimal.D0 u => 48%N :: uintChars u
  | Decimal.D1 u => 49%N :: uintChars u
  | Decimal.D2 u => 50%N :: uintChars u
  | Decimal.D3 u => 51%N :: uintChars u
  | Decimal.D4 u => 52%N :: uintChars u
  | Decimal.D5 u => 53%N :: uintChars u
  | Decimal.D6 u => 54%N :: uintChars u
  | Decimal.D7 u => 55%N :: uintChars u
  | Decimal.D8 u => 56%N :: uintChars u
  | Decimal.D9 u => 57%N :: uintChars u
  end.

Definition digitsOf (z : Z) : jsstring := uintChars (N.to_uint (Z.to_N z)).

(** The positive value [m * 2^e] and the bounds of the set of reals
    that round to it, all three as numerators over the common
    denominator [fr_den]. *)
Record roundingInterval : Type := {
  fr_val : Z; fr_lo : Z; fr_hi : Z; fr_den : Z; fr_closed : bool
}.

Definition intervalOf (m : positive) (e : Z) : roundingInterval :=
  let boundary := (Z.pos m =? 2 ^ 52)%Z && (-1074 <? e)%Z in
  let v := (4 * Z.pos m)%Z in
  let lo := (if boundary then v - 1 else v - 2)%Z in
  let hi := (v + 2)%Z in
  let closed := Z.even (Z.pos m) in
  if (2 <=? e)%Z then
    let w := (2 ^ (e - 2))%Z in
    {| fr_val := v * w; fr_lo := lo * w; fr_hi := hi * w; fr_den := 1;
       fr_closed := closed |}
  else
    {| fr_val := v; fr_lo := lo; fr_hi := hi; fr_den := 2 ^ (2 - e);
       fr_closed := closed |}.

(** [s * 10^p] and a numerator [x] over [fr_den], brought to a common
    scale. *)
Definition scaledDec (i : roundingInterval) (s p : Z) : Z :=
  (if 0 <=? p then s * 10 ^ p * fr_den i else s * fr_den i)%Z.
Definition scaledNum (x p : Z) : Z :=
  (if 0 <=? p then x else x * 10 ^ (- p))%Z.

Definition roundsTo (i : roundingInterval) (s p : Z) : bool :=
  let d := scaledDec i s p in
  if fr_closed i
  then (scaledNum (fr_lo i) p <=? d)%Z && (d <=? scaledNum (fr_hi i) p)%Z
  else (scaledNum (fr_lo i) p <? d)%Z && (d <? scaledNum (fr_hi i) p)%Z.

(** The least [n] from [n0] on with [value < 10^n]. *)
Fixpoint decimalExponent (fuel : nat) (i : roundingInterval) (n : Z) : Z :=
  match fuel with
  | O => n
  | S fuel' =>
      if (scaledNum (fr_val i) n <? scaledDec i 1 n)%Z then n
      else decimalExponent fuel' i (n + 1)%Z
  end.

(** A lower estimate of that exponent from the binary one:
    [2^(b+e-1) <= m * 2^e] for a mantissa of [b] bits, and
    [log10 2 = 0.30103] to five places. *)
Definition exponentGuess (m : positive) (e : Z) : Z :=
  ((Z.pos (digits2_pos m) + e - 1) * 30103 / 100000 - 2)%Z.

Definition floorDec (i : roundingInterval) (p : Z) : Z :=
  (if 0 <=? p then fr_val i / (fr_den i * 10 ^ p)
   else (fr_val i * 10 ^ (- p)) / fr_den i)%Z.

(** The digits [s], their count [k] and the exponent [n]. *)
Fixpoint shortestDigits (fuel : nat) (i : roundingInterval) (n0 k : Z)
  : Z * Z * Z :=
  let p := (n0 - k)%Z in
  let lower := floorDec i p in
  let upper := (lower + 1)%Z in
  let below := (scaledNum (fr_val i) p - scaledDec i lower p)%Z in
  let above := (scaledDec i upper p - scaledNum (fr_val i) p)%Z in
  let pickUpper :=
    if (upper =? 10 ^ k)%Z then (1, 1, n0 + 1)%Z else (upper, k, n0) in
  match roundsTo i lower p, roundsTo i upper p with
  | true, true =>
      if (below <? above)%Z then (lower, k, n0)
      else if (above <? below)%Z then pickUpper
      else if Z.even lower then (lower, k, n0) else pickUpper
  | true, false => (lower, k, n0)
  | false, true => pickUpper
  | false, false =>
      match fuel with
      | O => (lower, k, n0)
      | S fuel' => shortestDigits fuel' i n0 (k + 1)%Z
      end
  end.

Definition zeros (n : Z) : jsstring := repeat 48%N (Z.to_nat n).

Definition formatDigits (s k n : Z) : jsstring :=
  let ds := digitsOf s in
  if ((k <=? n) && (n <=? 21))%Z then ds ++ zeros (n - k)
  else if ((0 <? n) && (n <=? 21))%Z then
    firstn (Z.to_nat n) ds ++ str "." ++ skipn (Z.to_nat n) ds
  else if ((-6 <? n) && (n <=? 0))%Z then
    str "0." ++ zeros (- n) ++ ds
  else
    let e := (n - 1)%Z in
    let sign := if (e <? 0)%Z then str "-" else str "+" in
    let mant :=
      if (k =? 1)%Z then ds else firstn 1 ds ++ str "." ++ skipn 1 ds in
    mant ++ str "e" ++ sign ++ digitsOf (Z.abs e).

Definition numberToString (x : number) : jsstring :=
  match x with
  | S754_nan => str "NaN"
  | S754_zero _ => str "0"
  | S754_infinity s => (if s then str "-" else []) ++ str "Infinity"
  | S754_finite s m e =>
      let i := intervalOf m e in
      let n0 := decimalExponent 8 i (exponentGuess m e) in
      let '(d, k, n) := shortestDigits 17 i n0 1 in
      (if s then str "-" else []) ++ formatDigits d k n
  end.


(** ** The editor state (types.ts) *)

Inductive DocumentKind : Type := SLO | SLI.
Inductive IndicatorMode : Type := inline | reference.
Inductive IndicatorType : Type := ratio | threshold.
Inductive BudgetingMethod : Type := Occurrences | Timeslices.
Inductive TimeWindowUnit : Type := Day | Hour | Minute | Week.
Inductive Operator : Type := lt | lte | gt | gte.

(** A property that the source compares with [undefined] and [null]. *)
Inductive nullable (A : Type) : Type :=
| Undefined
| Null
| Val (a : A).
Arguments Undefined {A}.
Arguments Null {A}.
Arguments Val {A} a.

Record MetricSource : Type := {
  type_ : jsstring;
  query : jsstring
}.

Record RatioMetric : Type := {
  good : option MetricSource;
  bad : option MetricSource;
  total : MetricSource
}.

Record ThresholdMetric : Type := {
  source : MetricSource;
  operator : Operator;
  value : nullable number
}.

Record SloState : Type := {
  id_ : jsstring;
  apiVersion : jsstring;
  kind : DocumentKind;
  name : jsstring;
  displayName : jsstring;
  description : jsstring;
  service : jsstring;
  app : jsstring;
  budgetingMethod : BudgetingMethod;
  target : nullable number;
  timeWindowCount : number;
  timeWindowUnit : TimeWindowUnit;
  timeWindowRolling : bool;
  indicatorMode : IndicatorMode;
  indicatorRef : option jsstring;
  indicatorType : IndicatorType;
  ratioMetric : option RatioMetric;
  thresholdMetric : option ThresholdMetric
}.

Definition isSLO (k : DocumentKind) : bool :=
  match k with SLO => true | SLI => false end.
Definition isSLI (k : DocumentKind) : bool :=
  match k with SLI => true | SLO => false end.
Definition isInline (m : IndicatorMode) : bool :=
  match m with inline => true | reference => false end.
Definition isReference (m : IndicatorMode) : bool :=
  match m with reference => true | inline => false end.
Definition isThreshold (t : IndicatorType) : bool :=
  match t with threshold => true | ratio => false end.
Definition isRatio (t : IndicatorType) : bool :=
  match t with ratio => true | threshold => false end.

(** ToBoolean on an optional value: [undefined] is falsy, an object is
    truthy, a string is truthy when it is not empty. *)
Definition defined {A : Type} (o : option A) : bool :=
  match o with Some _ => true | None => false end.
Definition optTruthy (o : option jsstring) : bool :=
  match o with Some s => truthy s | None => false end.

(** [x === undefined || x === null] *)
Definition isNullish {A : Type} (x : nullable A) : bool :=
  match x with Val _ => false | _ => true end.

(** The string values of the enumerations and the conversions a template
    literal applies to its substitutions. *)
Definition showBudgetingMethod (b : BudgetingMethod) : jsstring :=
  match b with
  | Occurrences => str "occurrences"
  | Timeslices => str "timeslices"
  end.
Definition showTimeWindowUnit (u : TimeWindowUnit) : jsstring :=
  match u with
  | Day => str "d" | Hour => str "h" | Minute => str "m" | Week => str "w"
  end.
Definition showOperator (o : Operator) : jsstring :=
  match o with
  | lt => str "lt" | lte => str "lte" | gt => str "gt" | gte => str "gte"
  end.
Definition showBool (b : bool) : jsstring :=
  if b then str "true" else str "false".
Definition showNumber (x : nullable number) : jsstring :=
  match x with
  | Undefined => str "undefined"
  | Null => str "null"
  | Val v => numberToString v
  end.
Definition showOptString (o : option jsstring) : jsstring :=
  match o with Some s => s | None => str "undefined" end.

(** ** validateState (src/App.tsx) *)

(** [newErrors] is the object the source fills in, keyed by field. *)
Definition validateState (state : SloState) : gmap string string :=
  let newErrors : gmap string string := ∅ in
  (* Metadata Validation *)
  let newErrors :=
    if negb (truthy (trim (name state))) then
      <["name" := "Name is required"]> newErrors
    else if negb (test noFlags k8sNameRegex (name state)) then
      <["name" := "Must be lowercase alphanumeric (kebab-case)"]> newErrors
    else newErrors in
  let newErrors :=
    if negb (truthy (trim (displayName state))) then
      <["displayName" := "Display Name is required"]> newErrors
    else newErrors in
  (* SLO-only validation *)
  let newErrors :=
    if isSLO (kind state) then
      let newErrors :=
        if negb (truthy (trim (service state))) then
          <["service" := "Service is required"]> newErrors
        else newErrors in
      (* Objective Validation *)
      let newErrors :=
        match target state with
        | Undefined | Null => <["target" := "Target is required"]> newErrors
        | Val t =>
            if num_lt t (ofZ 0) || num_gt t (ofZ 1) then
              <["target" := "Must be between 0.0 and 1.0"]> newErrors
            else newErrors
        end in
      let newErrors :=
        if negb (numTruthy (timeWindowCount state))
           || num_le (timeWindowCount state) (ofZ 0)
           || negb (isInteger (timeWindowCount state)) then
          <["timeWindowCount" := "Must be a positive integer"]> newErrors
        else newErrors in
      (* Indicator Reference Validation *)
      let newErrors :=
        if isReference (indicatorMode state) then
          if negb (optTruthy (trim <$> indicatorRef state)) then
            <["indicatorRef" := "SLI Reference name is required"]> newErrors
          else newErrors
        else newErrors in
      newErrors
    else newErrors in
  (* Metric Validation (Only for SLI OR SLO Inline) *)
  let validateMetrics :=
    isSLI (kind state)
    || (isSLO (kind state) && isInline (indicatorMode state)) in
  let newErrors :=
    if validateMetrics then
      if isThreshold (indicatorType state) then
        let newErrors :=
          if negb (optTruthy
                     ((fun tm => trim (query (source tm)))
                        <$> thresholdMetric state)) then
            <["thresholdQuery" := "Query is required"]> newErrors
          else newErrors in
        let newErrors :=
          match value <$> thresholdMetric state with
          | None | Some Undefined | Some Null =>
              <["thresholdValue" := "Threshold value is required"]> newErrors
          | Some (Val _) => newErrors
          end in
        newErrors
      else if isRatio (indicatorType state) then
        let newErrors :=
          if negb (optTruthy
                     ((fun rm => trim (query (total rm)))
                        <$> ratioMetric state)) then
            <["ratioTotal" := "Total query is required"]> newErrors
          else newErrors in
        let hasGood :=
          optTruthy ((fun g => trim (query g))
                       <$> (ratioMetric state ≫= good)) in
        let hasBad :=
          optTruthy ((fun b => trim (query b))
                       <$> (ratioMetric state ≫= bad)) in
        let newErrors :=
          if negb hasGood && negb hasBad then
            <["ratioGoodBad" :=
                "Either Good or Bad metric query is required"]> newErrors
          else newErrors in
        newErrors
      else newErrors
    else newErrors in
  newErrors.

(** ** generateYaml (utils/yamlGenerator.ts) *)

(** Reading a property of [undefined] throws a TypeError; everything
    else in the generator returns normally. *)
Inductive result (A : Type) : Type :=
| Ok (a : A)
| TypeError.
Arguments Ok {A} a.
Arguments TypeError {A}.

#[export] Instance result_ret : MRet result := fun _ a => Ok a.
#[export] Instance result_bind : MBind result := fun _ _ f m =>
  match m with
  | Ok a => f a
  | TypeError => TypeError
  end.

(** The object a member expression reads from. *)
Definition member {A : Type} (o : option A) : result A :=
  match o with
  | Some a => Ok a
  | None => TypeError
  end.

Definition generateYaml (state : SloState) : result jsstring :=
  let apiVersion := apiVersion state in
  let kind := kind state in
  let name := name state in
  let displayName := displayName state in
  let description := description state in
  let service := service state in
  let app := app state in
  let budgetingMethod := budgetingMethod state in
  let target := target state in
  let timeWindowCount := timeWindowCount state in
  let timeWindowUnit := timeWindowUnit state in
  let timeWindowRolling := timeWindowRolling state in
  let indicatorMode := indicatorMode state in
  let indicatorRef := indicatorRef state in
  let indicatorType := indicatorType state in
  let ratioMetric := ratioMetric state in
  let thresholdMetric := thresholdMetric state in
  (* 1. Build the Metric YAML block *)
  metricBlock ←
    (if isThreshold indicatorType && defined thresholdMetric then
       tm ← member thresholdMetric;
       mret (concat [ str "thresholdMetric:"; eol;
                      str "  metricSource:"; eol;
                      str "    type: "; type_ (source tm); eol;
                      str "    spec:"; eol;
                      str "      query: >-"; eol;
                      str "        "; query (source tm); eol;
                      str "  operator: "; showOperator (operator tm); eol;
                      str "  value: "; showNumber (value tm) ])
     else if isRatio indicatorType && defined ratioMetric then
       rm ← member ratioMetric;
       goodPart ←
         (if defined (good rm) then
            g ← member (good rm);
            mret (concat [ str "good:"; eol;
                           str "    metricSource:"; eol;
                           str "      type: "; type_ g; eol;
                           str "      spec:"; eol;
                           str "        query: >-"; eol;
                           str "          "; query g ])
          else mret []);
       badPart ←
         (if defined (bad rm) then
            b ← member (bad rm);
            mret (concat [ str "bad:"; eol;
                           str "    metricSource:"; eol;
                           str "      type: "; type_ b; eol;
                           str "      spec:"; eol;
                           str "        query: >-"; eol;
                           str "          "; query b ])
          else mret []);
       mret (concat [ str "ratioMetric:"; eol;
                      str "  "; goodPart; eol;
                      str "  "; badPart; eol;
                      str "  total:"; eol;
                      str "    metricSource:"; eol;
                      str "      type: "; type_ (total rm); eol;
                      str "      spec:"; eol;
                      str "        query: >-"; eol;
                      str "          "; query (total rm) ])
     else mret []);
  (* Remove empty lines created by conditionals in metricBlock *)
  let metricBlock := deleteAll flagsGM blankLineRegex metricBlock in
  (* Prepare metadata labels *)
  let metadataLabels :=
    if truthy app && truthy (trim app) then
      concat [ eol; str "  labels:"; eol; str "    app: "; app ]
    else [] in
  (* 2. Generate based on Kind *)
  if isSLI kind then
    let indentedMetric := indentLines (str "  ") metricBlock in
    mret (concat [ str "apiVersion: "; apiVersion; eol;
                   str "kind: SLI"; eol;
                   str "metadata:"; eol;
                   str "  name: "; name; eol;
                   str "  displayName: "; displayName; metadataLabels; eol;
                   str "spec:"; eol;
                   str "  description: "; description; eol;
                   indentedMetric ])
  else
    let indicatorSection :=
      if isReference indicatorMode && optTruthy indicatorRef then
        str "  indicatorRef: " ++ showOptString indicatorRef
      else
        let indentedMetric := indentLines (str "    ") metricBlock in
        concat [ str "  indicator:"; eol; indentedMetric ] in
    mret (concat [ str "apiVersion: "; apiVersion; eol;
                   str "kind: SLO"; eol;
                   str "metadata:"; eol;
                   str "  name: "; name; eol;
                   str "  displayName: "; displayName; metadataLabels; eol;
                   str "spec:"; eol;
                   str "  description: "; description; eol;
                   str "  service: "; service; eol;
                   str "  budgetingMethod: ";
                   showBudgetingMethod budgetingMethod; eol;
                   str "  objectives:"; eol;
                   str "    - displayName: "; displayName; eol;
                   str "      target: "; showNumber target; eol;
                   str "      timeWindow:"; eol;
                   str "        - rolling: "; showBool timeWindowRolling; eol;
                   str "          count: ";
                   numberToString timeWindowCount; eol;
                   str "          unit: "; showTimeWindowUnit timeWindowUnit;
                   eol;
                   indicatorSection ]).

(** ** The built-in configurations (types.ts) *)

Definition DEFAULT_SLO_STATE : SloState := {|
  id_ := [];
  apiVersion := str "openslo/v1";
  kind := SLO;
  name := str "my-service-availability";
  displayName := str "My Service Availability";
  description := str "Availability SLO for the core API service";
  service := str "core-api";
  app := [];
  budgetingMethod := Occurrences;
  target := Val (decimal 999 3);
  timeWindowCount := ofZ 28;
  timeWindowUnit := Day;
  timeWindowRolling := true;
  indicatorMode := inline;
  indicatorRef := None;
  indicatorType := threshold;
  ratioMetric := None;
  thresholdMetric := Some {|
    source := {|
      type_ := str "prometheus";
      query := str "http_request_duration_seconds_bucket{le=" ++ dquote
               ++ str "0.5" ++ dquote ++ str "}" |};
    operator := lte;
    value := Val (decimal 5 1) |}
|}.

(** [{ ...DEFAULT_SLO_STATE, ...TEMPLATES.sliReference, id: '' }] *)
Definition template_sliReference : SloState := {|
  id_ := [];
  apiVersion := apiVersion DEFAULT_SLO_STATE;
  kind := SLO;
  name := str "worker-latency-slo";
  displayName := str "Worker Latency";
  description := str "SLO referencing a shared SLI";
  service := service DEFAULT_SLO_STATE;
  app := app DEFAULT_SLO_STATE;
  budgetingMethod := budgetingMethod DEFAULT_SLO_STATE;
  target := Val (decimal 99 2);
  timeWindowCount := timeWindowCount DEFAULT_SLO_STATE;
  timeWindowUnit := timeWindowUnit DEFAULT_SLO_STATE;
  timeWindowRolling := timeWindowRolling DEFAULT_SLO_STATE;
  indicatorMode := reference;
  indicatorRef := Some (str "worker-latency-sli");
  indicatorType := indicatorType DEFAULT_SLO_STATE;
  ratioMetric := ratioMetric DEFAULT_SLO_STATE;
  thresholdMetric := thresholdMetric DEFAULT_SLO_STATE
|}.

(** [{ ...DEFAULT_SLO_STATE, ...TEMPLATES.standaloneSli, id: '' }] *)
Definition template_standaloneSli : SloState := {|
  id_ := [];
  apiVersion := apiVersion DEFAULT_SLO_STATE;
  kind := SLI;
  name := str "shared-error-sli";
  displayName := str "Shared Error SLI";
  description := str "Standard error rate SLI used by multiple services";
  service := service DEFAULT_SLO_STATE;
  app := app DEFAULT_SLO_STATE;
  budgetingMethod := budgetingMethod DEFAULT_SLO_STATE;
  target := target DEFAULT_SLO_STATE;
  timeWindowCount := timeWindowCount DEFAULT_SLO_STATE;
  timeWindowUnit := timeWindowUnit DEFAULT_SLO_STATE;
  timeWindowRolling := timeWindowRolling DEFAULT_SLO_STATE;
  indicatorMode := indicatorMode DEFAULT_SLO_STATE;
  indicatorRef := indicatorRef DEFAULT_SLO_STATE;
  indicatorType := ratio;
  ratioMetric := Some {|
    good := None;
    bad := Some {| type_ := str "prometheus";
                   query := str "sum(rate(errors_total[5m]))" |};
    total := {| type_ := str "prometheus";
                query := str "sum(rate(requests_total[5m]))" |} |};
  thresholdMetric := thresholdMetric DEFAULT_SLO_STATE
|}.

(** ** Field updates used to state examples: [{ ...state, field: v }] *)

Definition withName (v : jsstring) (s : SloState) : SloState := {|
  id_ := id_ s; apiVersion := apiVersion s; kind := kind s; name := v;
  displayName := displayName s; description := description s;
  service := service s; app := app s; budgetingMethod := budgetingMethod s;
  target := target s; timeWindowCount := timeWindowCount s;
  timeWindowUnit := timeWindowUnit s;
  timeWindowRolling := timeWindowRolling s;
  indicatorMode := indicatorMode s; indicatorRef := indicatorRef s;
  indicatorType := indicatorType s; ratioMetric := ratioMetric s;
  thresholdMetric := thresholdMetric s |}.

Definition withTarget (v : nullable number) (s : SloState) : SloState := {|
  id_ := id_ s; apiVersion := apiVersion s; kind := kind s; name := name s;
  displayName := displayName s; description := description s;
  service := service s; app := app s; budgetingMethod := budgetingMethod s;
  target := v; timeWindowCount := timeWindowCount s;
  timeWindowUnit := timeWindowUnit s;
  timeWindowRolling := timeWindowRolling s;
  indicatorMode := indicatorMode s; indicatorRef := indicatorRef s;
  indicatorType := indicatorType s; ratioMetric := ratioMetric s;
  thresholdMetric := thresholdMetric s |}.

Definition withTimeWindowCount (v : number) (s : SloState) : SloState := {|
  id_ := id_ s; apiVersion := apiVersion s; kind := kind s; name := name s;
  displayName := displayName s; description := description s;
  service := service s; app := app s; budgetingMethod := budgetingMethod s;
  target := target s; timeWindowCount := v;
  timeWindowUnit := timeWindowUnit s;
  timeWindowRolling := timeWindowRolling s;
  indicatorMode := indicatorMode s; indicatorRef := indicatorRef s;
  indicatorType := indicatorType s; ratioMetric := ratioMetric s;
  thresholdMetric := thresholdMetric s |}.

Definition withIndicator (m : IndicatorMode) (r : option jsstring)
    (s : SloState) : SloState := {|
  id_ := id_ s; apiVersion := apiVersion s; kind := kind s; name := name s;
  displayName := displayName s; description := description s;
  service := service s; app := app s; budgetingMethod := budgetingMethod s;
  target := target s; timeWindowCount := timeWindowCount s;
  timeWindowUnit := timeWindowUnit s;
  timeWindowRolling := timeWindowRolling s;
  indicatorMode := m; indicatorRef := r;
  indicatorType := indicatorType s; ratioMetric := ratioMetric s;
  thresholdMetric := thresholdMetric s |}.

Definition withMetric (t : IndicatorType) (rm : option RatioMetric)
    (tm : option ThresholdMetric) (s : SloState) : SloState := {|
  id_ := id_ s; apiVersion := apiVersion s; kind := kind s; name := name s;
  displayName := displayName s; description := description s;
  service := service s; app := app s; budgetingMethod := budgetingMethod s;
  target := target s; timeWindowCount := timeWindowCount s;
  timeWindowUnit := timeWindowUnit s;
  timeWindowRolling := timeWindowRolling s;
  indicatorMode := indicatorMode s; indicatorRef := indicatorRef s;
  indicatorType := t; ratioMetric := rm; thresholdMetric := tm |}.

Definition withKind (k : DocumentKind) (s : SloState) : SloState := {|
  id_ := id_ s; apiVersion := apiVersion s; kind := k; name := name s;
  displayName := displayName s; description := description s;
  service := service s; app := app s; budgetingMethod := budgetingMethod s;
  target := target s; timeWindowCount := timeWindowCount s;
  timeWindowUnit := timeWindowUnit s;
  timeWindowRolling := timeWindowRolling s;
  indicatorMode := indicatorMode s; indicatorRef := indicatorRef s;
  indicatorType := indicatorType s; ratioMetric := ratioMetric s;
  thresholdMetric := thresholdMetric s |}.

Definition withDisplayName (v : jsstring) (s : SloState) : SloState := {|
  id_ := id_ s; apiVersion := apiVersion s; kind := kind s; name := name s;
  displayName := v; description := description s;
  service := service s; app := app s; budgetingMethod := budgetingMethod s;
  target := target s; timeWindowCount := timeWindowCount s;
  timeWindowUnit := timeWindowUnit s;
  timeWindowRolling := timeWindowRolling s;
  indicatorMode := indicatorMode s; indicatorRef := indicatorRef s;
  indicatorType := indicatorType s; ratioMetric := ratioMetric s;
  thresholdMetric := thresholdMetric s |}.

Definition withService (v : jsstring) (s : SloState) : SloState := {|
  id_ := id_ s; apiVersion := apiVersion s; kind := kind s; name := name s;
  displayName := displayName s; description := description s;
  service := v; app := app s; budgetingMethod := budgetingMethod s;
  target := target s; timeWindowCount := timeWindowCount s;
  timeWindowUnit := timeWindowUnit s;
  timeWindowRolling := timeWindowRolling s;
  indicatorMode := indicatorMode s; indicatorRef := indicatorRef s;
  indicatorType := indicatorType s; ratioMetric := ratioMetric s;
  thresholdMetric := thresholdMetric s |}.

(** ** The rules of the validator

    [breaks] is the table of rules the code applies, each with the test
    the code makes; [fails] further down is the table as section 4.1 of
    the specification words it.  The two differ in the target rule. *)

Inductive rule : Type :=
| RName | RDisplayName | RService | RTarget | RTimeWindowCount
| RIndicatorRef | RThresholdQuery | RThresholdValue | RRatioTotal
| RRatioGoodBad.

Definition allRules : list rule :=
  [RName; RDisplayName; RService; RTarget; RTimeWindowCount; RIndicatorRef;
   RThresholdQuery; RThresholdValue; RRatioTotal; RRatioGoodBad].

#[export] Instance rule_eq_dec : EqDecision rule.
Proof. solve_decision. Defined.

(** The fixed key each rule reports under. *)
Definition ruleKey (r : rule) : string :=
  match r with
  | RName => "name"
  | RDisplayName => "displayName"
  | RService => "service"
  | RTarget => "target"
  | RTimeWindowCount => "timeWindowCount"
  | RIndicatorRef => "indicatorRef"
  | RThresholdQuery => "thresholdQuery"
  | RThresholdValue => "thresholdValue"
  | RRatioTotal => "ratioTotal"
  | RRatioGoodBad => "ratioGoodBad"
  end.

(** Blank after trimming; an absent string counts as blank. *)
Definition blank (s : jsstring) : bool := negb (truthy (trim s)).
Definition blankOpt (o : option jsstring) : bool :=
  match o with Some s => blank s | None => true end.

(** The range test of the code, [!(x < 0 || x > 1)]: neither below 0 nor
    above 1 in the order of Numbers.  NaN is unordered and passes it. *)
Definition withinUnit (x : number) : bool :=
  negb (num_lt x (ofZ 0)) && negb (num_gt x (ofZ 1)).

Definition positiveInteger (x : number) : bool :=
  isInteger x && num_gt x (ofZ 0).

(** Metric validation applies for an SLI and for an inline SLO. *)
Definition metricsApply (s : SloState) : bool :=
  isSLI (kind s) || (isSLO (kind s) && isInline (indicatorMode s)).

(** [breaks r s]: rule [r] applies to [s] and fails, by the test the code
    makes. *)
Definition breaks (r : rule) (s : SloState) : bool :=
  match r with
  | RName =>
      blank (name s) || negb (test noFlags k8sNameRegex (name s))
  | RDisplayName => blank (displayName s)
  | RService => isSLO (kind s) && blank (service s)
  | RTarget =>
      isSLO (kind s) &&
      match target s with
      | Val t => negb (withinUnit t)
      | _ => true
      end
  | RTimeWindowCount =>
      isSLO (kind s) && negb (positiveInteger (timeWindowCount s))
  | RIndicatorRef =>
      isSLO (kind s) && isReference (indicatorMode s)
      && blankOpt (indicatorRef s)
  | RThresholdQuery =>
      metricsApply s && isThreshold (indicatorType s)
      && blankOpt ((fun tm => query (source tm)) <$> thresholdMetric s)
  | RThresholdValue =>
      metricsApply s && isThreshold (indicatorType s)
      && match thresholdMetric s with
         | Some tm => isNullish (value tm)
         | None => true
         end
  | RRatioTotal =>
      metricsApply s && isRatio (indicatorType s)
      && blankOpt ((fun rm => query (total rm)) <$> ratioMetric s)
  | RRatioGoodBad =>
      metricsApply s && isRatio (indicatorType s)
      && blankOpt (query <$> (ratioMetric s ≫= good))
      && blankOpt (query <$> (ratioMetric s ≫= bad))
  end.

(** The message a failing rule attaches. *)
Definition message (r : rule) (s : SloState) : string :=
  match r with
  | RName =>
      if blank (name s) then "Name is required"
      else "Must be lowercase alphanumeric (kebab-case)"
  | RDisplayName => "Display Name is required"
  | RService => "Service is required"
  | RTarget =>
      if isNullish (target s) then "Target is required"
      else "Must be between 0.0 and 1.0"
  | RTimeWindowCount => "Must be a positive integer"
  | RIndicatorRef => "SLI Reference name is required"
  | RThresholdQuery => "Query is required"
  | RThresholdValue => "Threshold value is required"
  | RRatioTotal => "Total query is required"
  | RRatioGoodBad => "Either Good or Bad metric query is required"
  end.

Definition applyRule (s : SloState) (m : gmap string string) (r : rule)
  : gmap string string :=
  if breaks r s then <[ruleKey r := message r s]> m else m.

(** The shape the name pattern describes: one lowercase alphanumeric
    unit, or a first and a last one with hyphens and lowercase
    alphanumerics between them. *)
Fixpoint dashTail (t : jsstring) : bool :=
  match t with
  | [] => false
  | [a] => isLowerAlnum a
  | x :: t' => isLowerAlnumDash x && dashTail t'
  end.

Definition dnsLabel (s : jsstring) : bool :=
  match s with
  | [] => false
  | [c] => isLowerAlnum c
  | c :: t => isLowerAlnum c && dashTail t
  end.

(** The closed interval [0,1] of the specification: [0 <= x] and
    [x <= 1].  NaN lies in no interval. *)
Definition inUnitInterval (x : number) : bool :=
  num_le (ofZ 0) x && num_le x (ofZ 1).

(** [fails r s]: rule [r] applies to [s] and fails, as section 4.1 words
    the rule.  Rule 3b -- a defined target is in [0,1] -- is membership
    of the closed interval. *)
Definition fails (r : rule) (s : SloState) : bool :=
  match r with
  | RName =>
      blank (name s) || negb (dnsLabel (name s))
  | RDisplayName => blank (displayName s)
  | RService => isSLO (kind s) && blank (service s)
  | RTarget =>
      isSLO (kind s) &&
      match target s with
      | Val t => negb (inUnitInterval t)
      | _ => true
      end
  | RTimeWindowCount =>
      isSLO (kind s) && negb (positiveInteger (timeWindowCount s))
  | RIndicatorRef =>
      isSLO (kind s) && isReference (indicatorMode s)
      && blankOpt (indicatorRef s)
  | RThresholdQuery =>
      metricsApply s && isThreshold (indicatorType s)
      && blankOpt ((fun tm => query (source tm)) <$> thresholdMetric s)
  | RThresholdValue =>
      metricsApply s && isThreshold (indicatorType s)
      && match thresholdMetric s with
         | Some tm => isNullish (value tm)
         | None => true
         end
  | RRatioTotal =>
      metricsApply s && isRatio (indicatorType s)
      && blankOpt ((fun rm => query (total rm)) <$> ratioMetric s)
  | RRatioGoodBad =>
      metricsApply s && isRatio (indicatorType s)
      && blankOpt (query <$> (ratioMetric s ≫= good))
      && blankOpt (query <$> (ratioMetric s ≫= bad))
  end.

(** What is left to match after the starred class of the optional
    group: one last alphanumeric unit, then the end of the input. *)
Definition lastAlnum (s : jsstring) : option jsstring :=
  match s with
  | [a] => if isLowerAlnum a then Some [] else None
  | _ => None
  end.

Definition prometheus (q : jsstring) : MetricSource :=
  {| type_ := str "prometheus"; query := q |}.

(** For each rule, a configuration that fails it and no other rule. *)
Definition brokenExample (r : rule) : SloState :=
  match r with
  | RName => withName (str "My-Service") DEFAULT_SLO_STATE
  | RDisplayName => withDisplayName (str "   ") DEFAULT_SLO_STATE
  | RService => withService [] DEFAULT_SLO_STATE
  | RTarget => withTarget (Val (decimal 10001 4)) DEFAULT_SLO_STATE
  | RTimeWindowCount =>
      withTimeWindowCount (decimal 25 1) DEFAULT_SLO_STATE
  | RIndicatorRef => withIndicator reference None DEFAULT_SLO_STATE
  | RThresholdQuery =>
      withMetric threshold None
        (Some {| source := prometheus []; operator := lte;
                 value := Val (decimal 5 1) |})
        DEFAULT_SLO_STATE
  | RThresholdValue =>
      withMetric threshold None
        (Some {| source := prometheus (str "up"); operator := lte;
                 value := Undefined |})
        DEFAULT_SLO_STATE
  | RRatioTotal =>
      withMetric ratio
        (Some {| good := Some (prometheus (str "up")); bad := None;
                 total := prometheus [] |})
        None DEFAULT_SLO_STATE
  | RRatioGoodBad =>
      withMetric ratio
        (Some {| good := None; bad := None;
                 total := prometheus (str "up") |})
        None DEFAULT_SLO_STATE
  end.

(** ** The blank-line pattern as a scanner

    [afterBlank s] is the match of [\s*\n] at the head of [s]: the
    longest run of white space that ends in a line feed, if there is
    one; the result is what follows it. *)
Fixpoint afterBlank (s : jsstring) : option jsstring :=
  match s with
  | [] => None
  | c :: t =>
      if isSpace c then
        match afterBlank t with
        | Some r => Some r
        | None => if (c =? 10)%N then Some t else None
        end
      else None
  end.

(** One pass over the text.  At the start of a line the white space
    read so far is held back ([Some w]): a line feed discards it, any
    other unit releases it.  Elsewhere ([None]) units are copied, and a
    line terminator opens a new line. *)
Fixpoint strip (pending : option jsstring) (s : jsstring) : jsstring :=
  match s with
  | [] => match pending with Some w => w | None => [] end
  | c :: t =>
      match pending with
      | Some w =>
          if (c =? 10)%N then strip (Some []) t
          else if isSpace c then strip (Some (w ++ [c])) t
          else w ++ c :: strip None t
      | None =>
          c :: strip (if isLineTerminator c then Some [] else None) t
      end
  end.

(** No position of [s] starts a match of the blank-line pattern; [ls]
    tells whether [s] itself begins a line. *)
Fixpoint noBlank (ls : bool) (s : jsstring) : bool :=
  (negb ls || negb (defined (afterBlank s)))
  && match s with
     | [] => true
     | c :: t => noBlank (isLineTerminator c) t
     end.

(** White space that holds no line feed. *)
Definition inlineSpace (w : jsstring) : bool :=
  forallb (fun c => isSpace c && negb (c =? 10)%N) w.

(** Two texts the scanner cannot tell apart, whatever it has read
    before them. *)
Definition stripEq (a b : jsstring) : Prop :=
  forall pending, strip pending a = strip pending b.

(** ** The ratio block, as the specification describes it *)

(** An entry of the ratio block: its key and the metric source below. *)
Definition sourceEntry (key : jsstring) (src : MetricSource) : jsstring :=
  concat [ str "  "; key; str ":"; eol;
           str "    metricSource:"; eol;
           str "      type: "; type_ src; eol;
           str "      spec:"; eol;
           str "        query: >-"; eol;
           str "          "; query src ].

(** The entries in the order good, bad, total; an absent entry
    contributes nothing. *)
Definition ratioBlock (rm : RatioMetric) : jsstring :=
  concat [ str "ratioMetric:";
           match good rm with
           | Some g => eol ++ sourceEntry (str "good") g
           | None => []
           end;
           match bad rm with
           | Some b => eol ++ sourceEntry (str "bad") b
           | None => []
           end;
           eol; sourceEntry (str "total") (total rm) ].

(** The threshold block: source type, query, operator and value under
    their fixed keys. *)
Definition thresholdBlock (tm : ThresholdMetric) : jsstring :=
  concat [ str "thresholdMetric:"; eol;
           str "  metricSource:"; eol;
           str "    type: "; type_ (source tm); eol;
           str "    spec:"; eol;
           str "      query: >-"; eol;
           str "        "; query (source tm); eol;
           str "  operator: "; showOperator (operator tm); eol;
           str "  value: "; showNumber (value tm) ].

(** The indicator body of a configuration: the block of the selected
    indicator type when its metric is present, nothing otherwise, with
    blank lines removed. *)
Definition indicatorBody (s : SloState) : jsstring :=
  deleteAll flagsGM blankLineRegex
    match indicatorType s with
    | threshold =>
        match thresholdMetric s with
        | Some tm => thresholdBlock tm
        | None => []
        end
    | ratio =>
        match ratioMetric s with
        | Some rm => ratioBlock rm
        | None => []
        end
    end.

(** The indicator section of an SLO document. *)
Definition indicatorSection (m : IndicatorMode) (r : option jsstring)
    (body : jsstring) : jsstring :=
  if isReference m && optTruthy r then
    str "  indicatorRef: " ++ showOptString r
  else
    str "  indicator:" ++ nl :: indentLines (str "    ") body.

(** ** Configurations used as examples *)

Definition thresholdWithQuery (q : jsstring) : SloState :=
  withMetric threshold None
    (Some {| source := prometheus q; operator := lte;
             value := Val (decimal 5 1) |})
    DEFAULT_SLO_STATE.

(** A query of two lines, and the same with a blank line between. *)
Definition twoLines : jsstring := str "a" ++ [nl] ++ str "b".
Definition twoLinesApart : jsstring := str "a" ++ [nl; nl] ++ str "b".

(** Reference mode selected, no name entered yet. *)
Definition referenceWithoutName : SloState :=
  withIndicator reference None DEFAULT_SLO_STATE.

(** A ratio SLI whose good entry exists with an empty query. *)
Definition ratioBlankGood : SloState :=
  withKind SLI
    (withMetric ratio
       (Some {| good := Some (prometheus []); bad := None;
                total := prometheus (str "up") |})
       None DEFAULT_SLO_STATE).


(** * The rest of the editor (src/App.tsx, types.ts) *)

(** ** The head of a document (utils/yamlGenerator.ts)

    Everything the generator writes before the indicator part. *)

Definition metadataLabels (app : jsstring) : jsstring :=
  if truthy app && truthy (trim app) then
    concat [ eol; str "  labels:"; eol; str "    app: "; app ]
  else [].

Definition documentHead (s : SloState) : jsstring :=
  match kind s with
  | SLI =>
      concat [ str "apiVersion: "; apiVersion s; eol;
               str "kind: SLI"; eol;
               str "metadata:"; eol;
               str "  name: "; name s; eol;
               str "  displayName: "; displayName s;
               metadataLabels (app s); eol;
               str "spec:"; eol;
               str "  description: "; description s ]
  | SLO =>
      concat [ str "apiVersion: "; apiVersion s; eol;
               str "kind: SLO"; eol;
               str "metadata:"; eol;
               str "  name: "; name s; eol;
               str "  displayName: "; displayName s;
               metadataLabels (app s); eol;
               str "spec:"; eol;
               str "  description: "; description s; eol;
               str "  service: "; service s; eol;
               str "  budgetingMethod: ";
               showBudgetingMethod (budgetingMethod s); eol;
               str "  objectives:"; eol;
               str "    - displayName: "; displayName s; eol;
               str "      target: "; showNumber (target s); eol;
               str "      timeWindow:"; eol;
               str "        - rolling: "; showBool (timeWindowRolling s); eol;
               str "          count: ";
               numberToString (timeWindowCount s); eol;
               str "          unit: ";
               showTimeWindowUnit (timeWindowUnit s) ]
  end.

(** What follows the head: the indented body of an SLI, the indicator
    section of an SLO. *)
Definition indicatorPart (s : SloState) : jsstring :=
  match kind s with
  | SLI => indentLines (str "  ") (indicatorBody s)
  | SLO =>
      indicatorSection (indicatorMode s) (indicatorRef s) (indicatorBody s)
  end.

(** The units of a text that are not white space, in order. *)
Definition inkOf (s : jsstring) : jsstring :=
  filter (fun c => isSpace c = false) s.

(** ** Single-field updates: [{ ...sloState, field: v }] *)

Definition withId (v : jsstring) (s : SloState) : SloState := {|
  id_ := v; apiVersion := apiVersion s; kind := kind s; name := name s;
  displayName := displayName s; description := description s;
  service := service s; app := app s; budgetingMethod := budgetingMethod s;
  target := target s; timeWindowCount := timeWindowCount s;
  timeWindowUnit := timeWindowUnit s;
  timeWindowRolling := timeWindowRolling s;
  indicatorMode := indicatorMode s; indicatorRef := indicatorRef s;
  indicatorType := indicatorType s; ratioMetric := ratioMetric s;
  thresholdMetric := thresholdMetric s |}.

Definition withApp (v : jsstring) (s : SloState) : SloState := {|
  id_ := id_ s; apiVersion := apiVersion s; kind := kind s; name := name s;
  displayName := displayName s; description := description s;
  service := service s; app := v; budgetingMethod := budgetingMethod s;
  target := target s; timeWindowCount := timeWindowCount s;
  timeWindowUnit := timeWindowUnit s;
  timeWindowRolling := timeWindowRolling s;
  indicatorMode := indicatorMode s; indicatorRef := indicatorRef s;
  indicatorType := indicatorType s; ratioMetric := ratioMetric s;
  thresholdMetric := thresholdMetric s |}.

Definition withDescription (v : jsstring) (s : SloState) : SloState := {|
  id_ := id_ s; apiVersion := apiVersion s; kind := kind s; name := name s;
  displayName := displayName s; description := v;
  service := service s; app := app s; budgetingMethod := budgetingMethod s;
  target := target s; timeWindowCount := timeWindowCount s;
  timeWindowUnit := timeWindowUnit s;
  timeWindowRolling := timeWindowRolling s;
  indicatorMode := indicatorMode s; indicatorRef := indicatorRef s;
  indicatorType := indicatorType s; ratioMetric := ratioMetric s;
  thresholdMetric := thresholdMetric s |}.

Definition withTimeWindowUnit (v : TimeWindowUnit) (s : SloState)
  : SloState := {|
  id_ := id_ s; apiVersion := apiVersion s; kind := kind s; name := name s;
  displayName := displayName s; description := description s;
  service := service s; app := app s; budgetingMethod := budgetingMethod s;
  target := target s; timeWindowCount := timeWindowCount s;
  timeWindowUnit := v;
  timeWindowRolling := timeWindowRolling s;
  indicatorMode := indicatorMode s; indicatorRef := indicatorRef s;
  indicatorType := indicatorType s; ratioMetric := ratioMetric s;
  thresholdMetric := thresholdMetric s |}.

(** ** Templates (types.ts, loadTemplate)

    A [Partial<SloState>]: the members an object literal sets. *)
Record SloPatch : Type := {
  p_kind : option DocumentKind;
  p_name : option jsstring;
  p_displayName : option jsstring;
  p_description : option jsstring;
  p_budgetingMethod : option BudgetingMethod;
  p_target : option number;
  p_indicatorMode : option IndicatorMode;
  p_indicatorRef : option jsstring;
  p_indicatorType : option IndicatorType;
  p_ratioMetric : option RatioMetric;
  p_thresholdMetric : option ThresholdMetric
}.

(** The keys of [TEMPLATES]; the toolbar offers exactly these. *)
Inductive TemplateKey : Type :=
| availability | latency | sliReference | standaloneSli.

Definition TEMPLATES (key : TemplateKey) : SloPatch :=
  match key with
  | availability => {|
      p_kind := Some SLO;
      p_name := Some (str "api-availability");
      p_displayName := Some (str "API Availability");
      p_description := Some (str "Percentage of successful requests");
      p_budgetingMethod := Some Occurrences;
      p_target := Some (decimal 999 3);
      p_indicatorMode := Some inline;
      p_indicatorRef := None;
      p_indicatorType := Some ratio;
      p_ratioMetric := Some {|
        good := Some (prometheus
                  (str "sum(rate(http_requests_total{status!~" ++ dquote
                   ++ str "5.." ++ dquote ++ str "}[5m]))"));
        bad := None;
        total := prometheus (str "sum(rate(http_requests_total[5m]))") |};
      p_thresholdMetric := None |}
  | latency => {|
      p_kind := Some SLO;
      p_name := Some (str "api-latency");
      p_displayName := Some (str "API Latency");
      p_description := Some (str "99% of requests served within 200ms");
      p_budgetingMethod := Some Occurrences;
      p_target := Some (decimal 99 2);
      p_indicatorMode := Some inline;
      p_indicatorRef := None;
      p_indicatorType := Some threshold;
      p_ratioMetric := None;
      p_thresholdMetric := Some {|
        source := prometheus
          (str "histogram_quantile(0.99, sum(rate(http_request_duration_seconds_bucket[5m])) by (le))");
        operator := lte;
        value := Val (decimal 2 1) |} |}
  | sliReference => {|
      p_kind := Some SLO;
      p_name := Some (str "worker-latency-slo");
      p_displayName := Some (str "Worker Latency");
      p_description := Some (str "SLO referencing a shared SLI");
      p_budgetingMethod := None;
      p_target := Some (decimal 99 2);
      p_indicatorMode := Some reference;
      p_indicatorRef := Some (str "worker-latency-sli");
      p_indicatorType := None;
      p_ratioMetric := None;
      p_thresholdMetric := None |}
  | standaloneSli => {|
      p_kind := Some SLI;
      p_name := Some (str "shared-error-sli");
      p_displayName := Some (str "Shared Error SLI");
      p_description :=
        Some (str "Standard error rate SLI used by multiple services");
      p_budgetingMethod := None;
      p_target := None;
      p_indicatorMode := None;
      p_indicatorRef := None;
      p_indicatorType := Some ratio;
      p_ratioMetric := Some {|
        good := None;
        bad := Some (prometheus (str "sum(rate(errors_total[5m]))"));
        total := prometheus (str "sum(rate(requests_total[5m]))") |};
      p_thresholdMetric := None |}
  end.

(** A member of the patch when it has one, of the state otherwise. *)
Definition orElse {A : Type} (o : option A) (d : A) : A :=
  match o with Some a => a | None => d end.
Definition orElseOpt {A : Type} (o d : option A) : option A :=
  match o with Some a => Some a | None => d end.

(** [{ ...prev, ...template, id: '' }] *)
Definition loadTemplate (templateKey : TemplateKey) (prev : SloState)
  : SloState :=
  let template := TEMPLATES templateKey in
  {| id_ := [];
     apiVersion := apiVersion prev;
     kind := orElse (p_kind template) (kind prev);
     name := orElse (p_name template) (name prev);
     displayName := orElse (p_displayName template) (displayName prev);
     description := orElse (p_description template) (description prev);
     service := service prev;
     app := app prev;
     budgetingMethod :=
       orElse (p_budgetingMethod template) (budgetingMethod prev);
     target := orElse (Val <$> p_target template) (target prev);
     timeWindowCount := timeWindowCount prev;
     timeWindowUnit := timeWindowUnit prev;
     timeWindowRolling := timeWindowRolling prev;
     indicatorMode := orElse (p_indicatorMode template) (indicatorMode prev);
     indicatorRef := orElseOpt (p_indicatorRef template) (indicatorRef prev);
     indicatorType := orElse (p_indicatorType template) (indicatorType prev);
     ratioMetric := orElseOpt (p_ratioMetric template) (ratioMetric prev);
     thresholdMetric :=
       orElseOpt (p_thresholdMetric template) (thresholdMetric prev) |}.

(** ** handleIndicatorTypeChange *)

Definition handleIndicatorTypeChange (type : IndicatorType)
    (prev : SloState) : SloState :=
  (* Initialize defaults if missing when switching *)
  if isThreshold type && negb (defined (thresholdMetric prev)) then
    withMetric type (ratioMetric prev)
      (Some {| source := prometheus []; operator := lte;
               value := Val (decimal 5 1) |})
      prev
  else if isRatio type && negb (defined (ratioMetric prev)) then
    withMetric type
      (Some {| good := Some (prometheus []); bad := None;
               total := prometheus [] |})
      (thresholdMetric prev) prev
  else withMetric type (ratioMetric prev) (thresholdMetric prev) prev.

(** ** The field editors of the form

    Each [onChange] stores [{ ...sloState, field: value }]; the numeric
    inputs store what [parseFloat] or [parseInt] made of the text, which
    may be NaN.  An editor of the threshold panel reads
    [sloState.thresholdMetric!]: with no threshold metric the query
    editor throws (it reads [.source] of [undefined]) and the operator
    and value editors build an object without a [source], which is not
    a [ThresholdMetric]. *)
Inductive outcome (A : Type) : Type :=
| Next (a : A)
| Raised
| IllShaped.
Arguments Next {A} a.
Arguments Raised {A}.
Arguments IllShaped {A}.

Definition withThresholdMetric (tm : ThresholdMetric) (s : SloState)
  : SloState :=
  withMetric (indicatorType s) (ratioMetric s) (Some tm) s.

Definition withRatioMetric (rm : RatioMetric) (s : SloState) : SloState :=
  withMetric (indicatorType s) (Some rm) (thresholdMetric s) s.

Definition editThresholdQuery (v : jsstring) (s : SloState)
  : outcome SloState :=
  match thresholdMetric s with
  | Some tm =>
      Next (withThresholdMetric
              {| source := {| type_ := type_ (source tm); query := v |};
                 operator := operator tm; value := value tm |} s)
  | None => Raised
  end.

Definition editThresholdOperator (v : Operator) (s : SloState)
  : outcome SloState :=
  match thresholdMetric s with
  | Some tm =>
      Next (withThresholdMetric
              {| source := source tm; operator := v; value := value tm |} s)
  | None => IllShaped
  end.

Definition editThresholdValue (v : number) (s : SloState)
  : outcome SloState :=
  match thresholdMetric s with
  | Some tm =>
      Next (withThresholdMetric
              {| source := source tm; operator := operator tm;
                 value := Val v |} s)
  | None => IllShaped
  end.

(** [sloState.ratioMetric || { total: { type: 'prometheus', query: '' } }] *)
Definition ratioOrEmpty (s : SloState) : RatioMetric :=
  match ratioMetric s with
  | Some rm => rm
  | None => {| good := None; bad := None; total := prometheus [] |}
  end.

Definition editGood (v : jsstring) (s : SloState) : SloState :=
  withRatioMetric
    {| good := Some (prometheus v); bad := bad (ratioOrEmpty s);
       total := total (ratioOrEmpty s) |} s.

Definition editBad (v : jsstring) (s : SloState) : SloState :=
  withRatioMetric
    {| good := good (ratioOrEmpty s); bad := Some (prometheus v);
       total := total (ratioOrEmpty s) |} s.

Definition editTotal (v : jsstring) (s : SloState) : SloState :=
  withRatioMetric
    {| good := good (ratioOrEmpty s); bad := bad (ratioOrEmpty s);
       total := prometheus v |} s.

(** ** The library of saved items *)

Record AppState : Type := {
  sloState : SloState;
  savedItems : list SloState
}.

(** [Object.keys(errors).length === 0], with [errors] the result of the
    validator on the current state (the effect on [sloState] keeps the
    two in step). *)
Definition isValid (s : SloState) : bool :=
  Nat.eqb (size (validateState s)) 0.

(** [a === b] on strings. *)
Definition strEq (a b : jsstring) : bool := bool_decide (a = b).

(** [items.findIndex(pred)], with [None] for -1. *)
Fixpoint findIndex {A : Type} (pred : A -> bool) (items : list A)
  : option nat :=
  match items with
  | [] => None
  | x :: rest =>
      if pred x then Some 0
      else match findIndex pred rest with
           | Some i => Some (S i)
           | None => None
           end
  end.

(** [uuid] stands for the value of [crypto.randomUUID()]. *)
Definition saveToLibrary (uuid : jsstring) (st : AppState) : AppState :=
  if negb (isValid (sloState st)) then st
  else
    let idToUse :=
      if truthy (id_ (sloState st)) then id_ (sloState st) else uuid in
    let itemToSave := withId idToUse (sloState st) in
    let newSavedItems := savedItems st in
    let index := findIndex (fun i => strEq (id_ i) idToUse) newSavedItems in
    let newSavedItems :=
      match index with
      | Some i => <[i := itemToSave]> newSavedItems
      | None => newSavedItems ++ [itemToSave]
      end in
    {| sloState := itemToSave; savedItems := newSavedItems |}.

Definition loadFromLibrary (item : SloState) (st : AppState) : AppState :=
  {| sloState := item; savedItems := savedItems st |}.

(** [confirmed] is the answer to the [confirm] dialog. *)
Definition deleteFromLibrary (id : jsstring) (confirmed : bool)
    (st : AppState) : AppState :=
  if confirmed then
    let newSavedItems :=
      filter (fun i => strEq (id_ i) id = false) (savedItems st) in
    {| sloState :=
         if strEq (id_ (sloState st)) id then withId [] (sloState st)
         else sloState st;
       savedItems := newSavedItems |}
  else st.

(** [downloadYaml]: nothing when the state is invalid, otherwise the
    file name [`${sloState.name || 'config'}.yaml`] and the document. *)
Definition downloadYaml (s : SloState)
  : option (jsstring * result jsstring) :=
  if negb (isValid s) then None
  else
    Some ((if truthy (name s) then name s else str "config") ++ str ".yaml",
          generateYaml s).

(** [copyToClipboard]: the text written, if any. *)
Definition copyToClipboard (s : SloState) : option (result jsstring) :=
  if negb (isValid s) then None else Some (generateYaml s).

(** ** The events of a session *)

Inductive event : Type :=
| LoadTemplate (key : TemplateKey)
| SetKind (k : DocumentKind)
| SetIndicatorMode (m : IndicatorMode)
| SetIndicatorType (t : IndicatorType)
| EditName (v : jsstring)
| EditDisplayName (v : jsstring)
| EditApp (v : jsstring)
| EditService (v : jsstring)
| EditDescription (v : jsstring)
| EditTarget (v : number)
| EditTimeWindowCount (v : number)
| EditTimeWindowUnit (v : TimeWindowUnit)
| EditIndicatorRef (v : jsstring)
| EditThresholdQuery (v : jsstring)
| EditThresholdOperator (v : Operator)
| EditThresholdValue (v : number)
| EditGood (v : jsstring)
| EditBad (v : jsstring)
| EditTotal (v : jsstring)
| SaveItem (uuid : jsstring)
| LoadItem (index : nat)
| DeleteItem (id : jsstring) (confirmed : bool).

Definition onState (f : SloState -> SloState) (st : AppState)
  : outcome AppState :=
  Next {| sloState := f (sloState st); savedItems := savedItems st |}.

Definition onStateMaybe (f : SloState -> outcome SloState) (st : AppState)
  : outcome AppState :=
  match f (sloState st) with
  | Next s => Next {| sloState := s; savedItems := savedItems st |}
  | Raised => Raised
  | IllShaped => IllShaped
  end.

(** What an event does to the state of the application.  [LoadItem] is the
    click on the card of a saved item; a card that is not there cannot
    be clicked. *)
Definition handle (e : event) (st : AppState) : outcome AppState :=
  match e with
  | LoadTemplate key => onState (loadTemplate key) st
  | SetKind k => onState (withKind k) st
  | SetIndicatorMode m =>
      onState (fun s => withIndicator m (indicatorRef s) s) st
  | SetIndicatorType t => onState (handleIndicatorTypeChange t) st
  | EditName v => onState (withName v) st
  | EditDisplayName v => onState (withDisplayName v) st
  | EditApp v => onState (withApp v) st
  | EditService v => onState (withService v) st
  | EditDescription v => onState (withDescription v) st
  | EditTarget v => onState (withTarget (Val v)) st
  | EditTimeWindowCount v => onState (withTimeWindowCount v) st
  | EditTimeWindowUnit v => onState (withTimeWindowUnit v) st
  | EditIndicatorRef v =>
      onState (fun s => withIndicator (indicatorMode s) (Some v) s) st
  | EditThresholdQuery v => onStateMaybe (editThresholdQuery v) st
  | EditThresholdOperator v => onStateMaybe (editThresholdOperator v) st
  | EditThresholdValue v => onStateMaybe (editThresholdValue v) st
  | EditGood v => onState (editGood v) st
  | EditBad v => onState (editBad v) st
  | EditTotal v => onState (editTotal v) st
  | SaveItem uuid => Next (saveToLibrary uuid st)
  | LoadItem index =>
      match savedItems st !! index with
      | Some item => Next (loadFromLibrary item st)
      | None => Next st
      end
  | DeleteItem id confirmed => Next (deleteFromLibrary id confirmed st)
  end.

(** A session: the events in order, stopping at the first that fails. *)
Fixpoint run (events : list event) (st : AppState) : outcome AppState :=
  match events with
  | [] => Next st
  | e :: rest =>
      match handle e st with
      | Next st' => run rest st'
      | Raised => Raised
      | IllShaped => IllShaped
      end
  end.

(** The application as it starts with an empty library. *)
Definition initialApp : AppState :=
  {| sloState := DEFAULT_SLO_STATE; savedItems := [] |}.

(** ** What a session keeps true *)

(** The threshold panel has a metric to edit, in the current state and
    in every saved item. *)
Definition thresholdReady (st : AppState) : Prop :=
  defined (thresholdMetric (sloState st)) = true
  /\ Forall (fun i => defined (thresholdMetric i) = true) (savedItems st).

(** Every saved item is free of validation errors and no two saved
    items share an id. *)
Definition libraryOk (st : AppState) : Prop :=
  Forall (fun i => isValid i = true) (savedItems st)
  /\ NoDup (id_ <$> savedItems st).

(** * Properties *)

(** ** Sample evaluations of the runtime model *)

Example k8s_ok : map (fun s => test noFlags k8sNameRegex (str s))
    ["my-service"; "a"; "a1-b2"; "My-Service"; "-abc"; "abc-"; "ab_c"; ""]%string
  = [true; true; true; false; false; false; false; false].
Proof. vm_compute. reflexivity. Qed.

Example toString_samples :
  map numberToString
    [ofZ 28; decimal 999 3; decimal 5 1; ofZ (10 ^ 21); decimal 1 7;
     SFadd 53 1024 (decimal 1 1) (decimal 2 1);
     S754_finite false 1 (-1074);
     S754_finite false (2 ^ 53 - 1) 971;
     ofZ (2 ^ 53); decimal 1 6; decimal 435 2; ofZ (10 ^ 23);
     decimal (-1) 4; decimal 10001 4; ofZ (-5); decimal 25 1;
     ofZ 123456789012345680000; decimal 123456789 4; ofZ 100; ofZ 0;
     S754_finite false (2 ^ 52) (-1022 - 52); decimal 2 1; decimal 99 2]
  = map str
    ["28"; "0.999"; "0.5"; "1e+21"; "1e-7";
     "0.30000000000000004";
     "5e-324";
     "1.7976931348623157e+308";
     "9007199254740992"; "0.000001"; "4.35"; "1e+23";
     "-0.0001"; "1.0001"; "-5"; "2.5";
     "123456789012345680000"; "12345.6789"; "100"; "0";
     "2.2250738585072014e-308"; "0.2"; "0.99"]%string.
Proof. vm_compute. reflexivity. Qed.

(** ** Facts about Numbers *)

Lemma positiveInteger_spec (x : number) :
  negb (numTruthy x) || num_le x (ofZ 0) || negb (isInteger x)
  = negb (positiveInteger x).
Proof.
  unfold positiveInteger, num_le, num_gt, SFleb, SFltb.
  destruct x as [s | s | | s m e]; try (destruct s; reflexivity); try reflexivity.
  change (ofZ 0) with (S754_zero false). cbn [numTruthy negb orb SFcompare].
  destruct s, (isInteger (S754_finite _ m e)); reflexivity.
Qed.

Lemma withinUnit_spec (x : number) :
  num_lt x (ofZ 0) || num_gt x (ofZ 1) = negb (withinUnit x).
Proof.
  unfold withinUnit. rewrite negb_andb, !negb_involutive. reflexivity.
Qed.

(** The order of Numbers is total away from NaN. *)
Lemma SFcompare_antisym (x y : number) :
  SFcompare y x = option_map CompOpp (SFcompare x y).
Proof.
  destruct x as [sx | sx | | sx mx ex], y as [sy | sy | | sy my ey];
    try reflexivity; try (by destruct sx); try (by destruct sy);
    try (by destruct sx, sy).
  cbn [SFcompare option_map]. f_equal.
  assert (Hm : Pos.compare_cont Eq my mx
               = CompOpp (Pos.compare_cont Eq mx my))
    by (symmetry; apply (Pos.compare_cont_antisym mx my Eq)).
  rewrite (Z.compare_antisym ex ey), Hm.
  by destruct sx, sy, (ex ?= ey)%Z, (Pos.compare_cont Eq mx my).
Qed.

Lemma SFcompare_Some (x y : number) :
  x <> NaN -> y <> NaN -> is_Some (SFcompare x y).
Proof.
  intros Hx Hy.
  destruct x as [sx | sx | | sx mx ex], y as [sy | sy | | sy my ey];
    try done; by eexists.
Qed.

Lemma not_lt_le (x y : number) :
  x <> NaN -> y <> NaN -> negb (num_lt x y) = num_le y x.
Proof.
  intros Hx Hy. unfold num_lt, num_le, SFltb, SFleb.
  rewrite (SFcompare_antisym x y).
  destruct (SFcompare_Some x y Hx Hy) as [c ->]. by destruct c.
Qed.

Lemma withinUnit_inUnitInterval (x : number) :
  x <> NaN -> withinUnit x = inUnitInterval x.
Proof.
  intros Hx. unfold withinUnit, inUnitInterval, num_gt.
  change (SFltb (ofZ 1) x) with (num_lt (ofZ 1) x).
  by rewrite !not_lt_le.
Qed.

Lemma inUnitInterval_NaN : inUnitInterval NaN = false.
Proof. reflexivity. Qed.

(** ** The validator as a table of rules *)

(** Replace the value bound by the outermost [let] of the left-hand
    side by [t], then substitute the bound (now atomic) value. *)
Ltac bind_as t tac :=
  lazymatch goal with
  | |- (let x := ?a in _) = _ =>
      let H := fresh in
      assert (H : a = t) by tac; rewrite H; clear H
  end;
  generalize t;
  let m := fresh "m" in
  intro m;
  lazymatch goal with
  | |- (let x := ?a in @?f x) = ?R => change (f a = R); cbv beta
  end.

Lemma validateState_rules (s : SloState) :
  validateState s = foldl (applyRule s) ∅ allRules.
Proof.
  cbv delta [validateState]; cbv beta.
  change (foldl (applyRule s) ∅ allRules) with
    (applyRule s (applyRule s (applyRule s (applyRule s (applyRule s
       (applyRule s (applyRule s (applyRule s (applyRule s (applyRule s ∅
       RName) RDisplayName) RService) RTarget) RTimeWindowCount)
       RIndicatorRef) RThresholdQuery) RThresholdValue) RRatioTotal)
       RRatioGoodBad).
  generalize (∅ : gmap string string); intros m.
  lazymatch goal with
  | |- (let x := ?a in @?f x) = ?R => change (f a = R); cbv beta
  end.
  bind_as (applyRule s m RName)
    ltac:(unfold applyRule, breaks, message, ruleKey, blank;
          destruct (truthy (trim (name s)));
          [destruct (test noFlags k8sNameRegex (name s)) |]; reflexivity).
  bind_as (applyRule s m0 RDisplayName) ltac:(reflexivity).
  bind_as (applyRule s (applyRule s (applyRule s (applyRule s m1
             RService) RTarget) RTimeWindowCount) RIndicatorRef)
    ltac:(unfold applyRule, breaks, message, ruleKey, blank, blankOpt;
          rewrite <- positiveInteger_spec;
          destruct (kind s); [| reflexivity];
          (destruct (target s) as [| | t];
           [| | rewrite <- (withinUnit_spec t)]);
          destruct (indicatorMode s); try reflexivity;
          destruct (indicatorRef s); reflexivity).
  lazymatch goal with
  | |- (let x := ?a in @?f x) = ?R => change (f a = R); cbv beta
  end.
  bind_as (applyRule s (applyRule s (applyRule s (applyRule s m2
             RThresholdQuery) RThresholdValue) RRatioTotal) RRatioGoodBad)
    ltac:(unfold applyRule, breaks, message, ruleKey, metricsApply, blank,
            blankOpt;
          destruct (isSLI (kind s)
                    || isSLO (kind s) && isInline (indicatorMode s));
          [| reflexivity];
          destruct (indicatorType s);
          [ destruct (ratioMetric s) as [[g b tt] |];
            [destruct g, b |]
          | destruct (thresholdMetric s) as [[src op v] |];
            [destruct v |] ];
          reflexivity).
  reflexivity.
Qed.

Lemma ruleKey_inj (r r' : rule) : ruleKey r = ruleKey r' -> r = r'.
Proof. destruct r, r'; intros H; try reflexivity; discriminate H. Qed.

Lemma lookup_applyRule_eq s m r :
  applyRule s m r !! ruleKey r
  = if breaks r s then Some (message r s) else m !! ruleKey r.
Proof.
  unfold applyRule. destruct (breaks r s); [apply lookup_insert_eq | done].
Qed.

Lemma lookup_applyRule_ne s m r k :
  ruleKey r ≠ k -> applyRule s m r !! k = m !! k.
Proof.
  intros H. unfold applyRule.
  destruct (breaks r s); [by apply lookup_insert_ne | done].
Qed.

(** What the validator reports under the key of a rule. *)
Lemma validateState_lookup s r :
  validateState s !! ruleKey r
  = if breaks r s then Some (message r s) else None.
Proof.
  rewrite validateState_rules. unfold allRules. cbn [foldl].
  destruct r;
    repeat first
      [ rewrite lookup_applyRule_eq; destruct (breaks _ s); [reflexivity |]
      | rewrite lookup_applyRule_ne by (intros Hk; discriminate Hk) ];
    apply lookup_empty.
Qed.

Lemma lookup_rules_Some s k v rules : forall m,
  foldl (applyRule s) m rules !! k = Some v ->
  m !! k = Some v \/ exists r, ruleKey r = k /\ breaks r s = true.
Proof.
  induction rules as [| r rules IH]; intros m H; [by left |].
  cbn [foldl] in H. apply IH in H as [H | H]; [| by right].
  unfold applyRule in H. destruct (breaks r s) eqn:Hr; [| by left].
  destruct (decide (ruleKey r = k)) as [Hk | Hk].
  - right. by exists r.
  - left. by rewrite lookup_insert_ne in H.
Qed.

(** Every reported key is the key of a rule that fails. *)
Lemma validateState_lookup_Some s k v :
  validateState s !! k = Some v ->
  exists r, ruleKey r = k /\ breaks r s = true.
Proof.
  rewrite validateState_rules. intros H.
  apply lookup_rules_Some in H as [H | H]; [| exact H].
  by rewrite lookup_empty in H.
Qed.

Lemma validateState_empty s :
  validateState s = ∅ <-> forall r, breaks r s = false.
Proof.
  split.
  - intros H r. pose proof (validateState_lookup s r) as Hl.
    rewrite H, lookup_empty in Hl. by destruct (breaks r s).
  - intros H. apply map_eq. intros k. rewrite lookup_empty.
    destruct (validateState s !! k) as [v |] eqn:Hk; [| done].
    apply validateState_lookup_Some in Hk as (r & _ & Hr).
    by rewrite H in Hr.
Qed.

Lemma validateState_dom_single s r :
  breaks r s = true ->
  (forall r', r' ≠ r -> breaks r' s = false) ->
  dom (validateState s) = {[ ruleKey r ]}.
Proof.
  intros Hr Hothers. apply set_eq. intros k.
  rewrite elem_of_dom, elem_of_singleton. split.
  - intros [v Hv]. apply validateState_lookup_Some in Hv as (r' & <- & Hr').
    destruct (decide (r' = r)) as [-> | Hne]; [done |].
    rewrite Hothers in Hr' by done. done.
  - intros ->. rewrite validateState_lookup, Hr. by eexists.
Qed.

(** ** The name pattern *)

Lemma isLowerAlnum_dash c :
  isLowerAlnum c = true -> isLowerAlnumDash c = true.
Proof. unfold isLowerAlnumDash. intros ->. apply orb_true_r. Qed.

Lemma matchStar_dashTail (K : option char -> jsstring -> option jsstring) :
  (forall p s, K p s = lastAlnum s) ->
  forall t prev,
    matchStar isLowerAlnumDash prev t K
    = if dashTail t then Some [] else None.
Proof.
  intros HK t. induction t as [| x t IH]; intros prev.
  - cbn. by rewrite HK.
  - cbn [matchStar]. rewrite IH, HK.
    destruct (isLowerAlnumDash x) eqn:Hx.
    + destruct t as [| y t]; [reflexivity |].
      change (dashTail (x :: y :: t))
        with (isLowerAlnumDash x && dashTail (y :: t)).
      rewrite Hx. by destruct (dashTail (y :: t)).
    + assert (Ha : isLowerAlnum x = false).
      { destruct (isLowerAlnum x) eqn:Ha; [| done].
        by rewrite (isLowerAlnum_dash _ Ha) in Hx. }
      destruct t as [| y t]; cbn [lastAlnum dashTail]; rewrite ?Ha, ?Hx; done.
Qed.

Lemma matchAt_k8s_start s :
  matchAt noFlags k8sNameRegex None s
  = if dnsLabel s then Some [] else None.
Proof.
  unfold matchAt, k8sNameRegex.
  cbn [matchRe atLineStart].
  destruct s as [| c t]; [reflexivity |].
  destruct (isLowerAlnum c) eqn:Hc.
  - rewrite (matchStar_dashTail _).
    + destruct t as [| y t]; [by cbn; rewrite Hc |].
      change (dnsLabel (c :: y :: t))
        with (isLowerAlnum c && dashTail (y :: t)).
      rewrite Hc. by destruct (dashTail (y :: t)).
    + intros p [| a [| b r]]; cbn; try destruct (isLowerAlnum a); reflexivity.
  - destruct t as [| y t]; cbn [dnsLabel]; by rewrite Hc.
Qed.

Lemma matchAt_k8s_later c s :
  matchAt noFlags k8sNameRegex (Some c) s = None.
Proof. reflexivity. Qed.

Lemma searchFrom_k8s_later s : forall c,
  searchFrom noFlags k8sNameRegex (Some c) s = false.
Proof.
  induction s as [| x s IH]; intros c; cbn [searchFrom];
    rewrite matchAt_k8s_later; [reflexivity | apply IH].
Qed.

(** The matcher accepts exactly the strings of the DNS-label shape. *)
Lemma test_k8sNameRegex s : test noFlags k8sNameRegex s = dnsLabel s.
Proof.
  unfold test. destruct s as [| c t]; cbn [searchFrom];
    rewrite matchAt_k8s_start.
  - reflexivity.
  - destruct (dnsLabel (c :: t)); [reflexivity | apply searchFrom_k8s_later].
Qed.

Lemma dashTail_spec t :
  dashTail t = true <->
  exists mid d, t = mid ++ [d] /\ forallb isLowerAlnumDash mid = true
                /\ isLowerAlnum d = true.
Proof.
  induction t as [| x t IH].
  - split; [done |]. intros (mid & d & H & _). by destruct mid.
  - destruct t as [| y t].
    + cbn [dashTail]. split.
      * intros Hx. by exists [], x.
      * intros (mid & d & H & _ & Hd).
        destruct mid as [| m [| m' mid]]; cbn in H; simplify_eq; done.
    + change (dashTail (x :: y :: t))
        with (isLowerAlnumDash x && dashTail (y :: t)).
      rewrite andb_true_iff, IH. split.
      * intros (Hx & mid & d & -> & Hm & Hd).
        exists (x :: mid), d. cbn [forallb]. by rewrite Hx, Hm.
      * intros (mid & d & H & Hm & Hd).
        destruct mid as [| m mid]; [by destruct t |].
        cbn [forallb] in Hm. apply andb_true_iff in Hm as [Hx Hm].
        cbn in H. injection H as -> Ht. split; [done |]. by exists mid, d.
Qed.

Lemma dnsLabel_spec s :
  dnsLabel s = true <->
  (exists c, s = [c] /\ isLowerAlnum c = true) \/
  (exists c mid d, s = c :: mid ++ [d] /\ isLowerAlnum c = true
                   /\ forallb isLowerAlnumDash mid = true
                   /\ isLowerAlnum d = true).
Proof.
  destruct s as [| c [| y t]].
  - split; [done |]. intros [(c & H & _) | (c & mid & d & H & _)]; done.
  - cbn [dnsLabel]. split.
    + intros Hc. left. by exists c.
    + intros [(c' & H & Hc) | (c' & mid & d & H & _)].
      * by simplify_eq.
      * destruct mid; cbn in H; simplify_eq.
  - change (dnsLabel (c :: y :: t)) with (isLowerAlnum c && dashTail (y :: t)).
    rewrite andb_true_iff, dashTail_spec. split.
    + intros (Hc & mid & d & Ht & Hm & Hd). right.
      exists c, mid, d. by rewrite Ht.
    + intros [(c' & H & _) | (c' & mid & d & H & Hc & Hm & Hd)]; [done |].
      injection H as -> Ht. split; [done |]. by exists mid, d.
Qed.

Lemma truthy_nil (s : jsstring) : truthy s = false <-> s = [].
Proof. by destruct s. Qed.

Lemma truthy_cons (s : jsstring) : truthy s = true <-> s <> [].
Proof. by destruct s. Qed.

(** Prove a [Forall] over a literal list element by element. *)
Ltac each_elem tac :=
  lazymatch goal with
  | |- Forall _ [] => constructor
  | |- Forall _ (_ :: _) => constructor; [tac | each_elem tac]
  end.

(** ** The validator, rule by rule *)

Lemma fails_breaks (r : rule) (s : SloState) :
  target s <> Val NaN -> fails r s = breaks r s.
Proof.
  intros Hn. destruct r; try reflexivity.
  - cbn [fails breaks]. by rewrite test_k8sNameRegex.
  - cbn [fails breaks]. destruct (target s) as [| | t]; try reflexivity.
    rewrite withinUnit_inUnitInterval; [reflexivity | congruence].
Qed.

(** C1, at the failing input and away from it.  With the rules as
    section 4.1 words them ([fails]): the default configuration with a
    NaN target fails rule 3b and no other rule, yet [validateState]
    returns the empty mapping.  For every configuration whose target is
    not NaN the claim holds: the result is empty exactly when no rule
    fails, a configuration that fails exactly one rule is reported under
    exactly that rule's key, and every rule can be failed in isolation
    ([brokenExample]). *)
Theorem validate_rules_but_nan_target :
  (fails RTarget (withTarget (Val NaN) DEFAULT_SLO_STATE) = true
   /\ (forall r', r' <> RTarget ->
         fails r' (withTarget (Val NaN) DEFAULT_SLO_STATE) = false)
   /\ validateState (withTarget (Val NaN) DEFAULT_SLO_STATE) = ∅)
  /\ (forall s, target s <> Val NaN ->
        (validateState s = ∅ <-> forall r, fails r s = false))
  /\ (forall s r,
        target s <> Val NaN ->
        fails r s = true ->
        (forall r', r' <> r -> fails r' s = false) ->
        dom (validateState s) = {[ ruleKey r ]})
  /\ (forall r,
        target (brokenExample r) <> Val NaN
        /\ fails r (brokenExample r) = true
        /\ (forall r', r' <> r -> fails r' (brokenExample r) = false)
        /\ dom (validateState (brokenExample r)) = {[ ruleKey r ]}).
Proof.
  assert (Hone : forall s r,
            target s <> Val NaN ->
            fails r s = true ->
            (forall r', r' <> r -> fails r' s = false) ->
            dom (validateState s) = {[ ruleKey r ]}).
  { intros s r Hn Hr Hothers. apply validateState_dom_single.
    - by rewrite <- fails_breaks.
    - intros r' Hne. rewrite <- fails_breaks by exact Hn. by apply Hothers. }
  split; [| split; [| split; [exact Hone |]]].
  - split; [reflexivity |]. split.
    + intros r' Hne. destruct r'; try (vm_compute; reflexivity); congruence.
    + apply validateState_empty. intros r. by destruct r; vm_compute.
  - intros s Hn. rewrite validateState_empty.
    split; intros H r; [rewrite fails_breaks | rewrite <- fails_breaks];
      done.
  - intros r.
    assert (Hn : target (brokenExample r) <> Val NaN)
      by (destruct r; vm_compute; discriminate).
    assert (H1 : fails r (brokenExample r) = true)
      by (destruct r; vm_compute; reflexivity).
    assert (H2 : forall r', r' <> r -> fails r' (brokenExample r) = false).
    { intros r' Hne.
      destruct r; destruct r'; try (vm_compute; reflexivity); congruence. }
    split; [exact Hn |]. split; [exact H1 |]. split; [exact H2 |].
    by apply Hone.
Qed.

Lemma validate_rules_but_nan_target_witness :
  target DEFAULT_SLO_STATE <> Val NaN
  /\ (validateState DEFAULT_SLO_STATE = ∅ <->
      forall r, fails r DEFAULT_SLO_STATE = false).
Proof.
  assert (Hn : target DEFAULT_SLO_STATE <> Val NaN)
    by (vm_compute; discriminate).
  split; [exact Hn |].
  exact (proj1 (proj2 validate_rules_but_nan_target) DEFAULT_SLO_STATE Hn).
Defined.

(** C6. Under the key [name] the validator reports "required" exactly
    when the name is blank after trimming, and otherwise the pattern
    message exactly when the name does not match the pattern; the
    pattern accepts exactly the DNS-label shape; [my-service], [a],
    [a1-b2] get no entry, [My-Service], [-abc], [abc-], [ab_c] and the
    empty name get one. *)
Theorem name_rule (s : SloState) :
  (validateState s !! "name" = Some "Name is required"
   <-> trim (name s) = [])
  /\ (validateState s !! "name"
        = Some "Must be lowercase alphanumeric (kebab-case)"
      <-> trim (name s) <> []
          /\ test noFlags k8sNameRegex (name s) = false)
  /\ (validateState s !! "name" = None
      <-> trim (name s) <> []
          /\ test noFlags k8sNameRegex (name s) = true)
  /\ (test noFlags k8sNameRegex (name s) = true
      <-> (exists c, name s = [c] /\ isLowerAlnum c = true)
          \/ (exists c mid d,
                name s = c :: mid ++ [d] /\ isLowerAlnum c = true
                /\ forallb isLowerAlnumDash mid = true
                /\ isLowerAlnum d = true))
  /\ Forall (fun n => validateState (withName (str n) s) !! "name" = None)
       ["my-service"; "a"; "a1-b2"]%string
  /\ Forall (fun n => is_Some (validateState (withName (str n) s) !! "name"))
       ["My-Service"; "-abc"; "abc-"; "ab_c"; ""]%string.
Proof.
  assert (Hspec :
    test noFlags k8sNameRegex (name s) = true
    <-> (exists c, name s = [c] /\ isLowerAlnum c = true)
        \/ (exists c mid d,
              name s = c :: mid ++ [d] /\ isLowerAlnum c = true
              /\ forallb isLowerAlnumDash mid = true
              /\ isLowerAlnum d = true))
    by (rewrite test_k8sNameRegex; apply dnsLabel_spec).
  assert (Hok :
    Forall (fun n => validateState (withName (str n) s) !! "name" = None)
      ["my-service"; "a"; "a1-b2"]%string).
  { each_elem ltac:(change "name" with (ruleKey RName);
                     rewrite validateState_lookup; vm_compute; reflexivity). }
  assert (Hbad :
    Forall (fun n => is_Some (validateState (withName (str n) s) !! "name"))
      ["My-Service"; "-abc"; "abc-"; "ab_c"; ""]%string).
  { each_elem ltac:(change "name" with (ruleKey RName);
                     rewrite validateState_lookup; vm_compute;
                     eexists; reflexivity). }
  change "name" with (ruleKey RName).
  rewrite !validateState_lookup.
  unfold breaks, message, blank.
  destruct (truthy (trim (name s))) eqn:Ht;
    [apply truthy_cons in Ht | apply truthy_nil in Ht];
    destruct (test noFlags k8sNameRegex (name s)) eqn:Hm;
    cbn [negb orb];
    (split_and!; [| | | exact Hspec | exact Hok | exact Hbad]);
    split; intros H; try done; try (by destruct H); try (by inversion H).
Qed.

(** C7, at the failing input and away from it.  For an SLO the validator
    reports "required" under [target] exactly when the target is
    [undefined] or [null]; for a target that is a Number other than NaN
    it reports the range message exactly when the target is outside the
    closed interval [0,1]; 0 and 1 get no entry, -0.0001, 1.0001 and
    [undefined] get one.  NaN is outside the interval and gets no
    entry. *)
Theorem target_rule_but_nan (s : SloState) :
  kind s = SLO ->
  (validateState s !! "target" = Some "Target is required"
   <-> target s = Undefined \/ target s = Null)
  /\ (forall t, target s = Val t -> t <> NaN ->
        (validateState s !! "target" = Some "Must be between 0.0 and 1.0"
         <-> inUnitInterval t = false)
        /\ (validateState s !! "target" = None
            <-> inUnitInterval t = true))
  /\ validateState (withTarget (Val (ofZ 0)) s) !! "target" = None
  /\ validateState (withTarget (Val (ofZ 1)) s) !! "target" = None
  /\ is_Some (validateState (withTarget (Val (decimal (-1) 4)) s) !! "target")
  /\ is_Some (validateState (withTarget (Val (decimal 10001 4)) s) !! "target")
  /\ is_Some (validateState (withTarget Undefined s) !! "target")
  /\ (inUnitInterval NaN = false
      /\ validateState (withTarget (Val NaN) s) !! "target" = None).
Proof.
  intros Hk.
  change "target" with (ruleKey RTarget).
  rewrite !validateState_lookup.
  unfold breaks, message. cbn [kind target withTarget]. rewrite Hk.
  cbn [isSLO andb].
  split; [| split].
  - destruct (target s) as [| | t]; cbn [isNullish negb].
    + split; [by left | done].
    + split; [by right | done].
    + split; [| by intros [H | H]].
      by destruct (withinUnit t).
  - intros t -> Hn. cbn [isNullish].
    rewrite (withinUnit_inUnitInterval t Hn).
    destruct (inUnitInterval t); cbn [negb]; split; split; done.
  - repeat split; try (vm_compute; reflexivity);
      vm_compute; eexists; reflexivity.
Qed.

Lemma target_rule_but_nan_witness :
  kind DEFAULT_SLO_STATE = SLO
  /\ target DEFAULT_SLO_STATE = Val (decimal 999 3)
  /\ decimal 999 3 <> NaN
  /\ validateState DEFAULT_SLO_STATE !! "target" = None.
Proof.
  assert (Hn : decimal 999 3 <> NaN) by (vm_compute; discriminate).
  split; [reflexivity |]. split; [reflexivity |]. split; [exact Hn |].
  apply (proj1 (proj2 (target_rule_but_nan DEFAULT_SLO_STATE eq_refl))
           (decimal 999 3) eq_refl Hn).
  vm_compute; reflexivity.
Defined.

(** C8. For an SLO the validator reports under [timeWindowCount] exactly
    when the count is falsy, at most 0, or not an integer; 1 gets no
    entry, 0, -5 and 2.5 get one. *)
Theorem timeWindowCount_rule (s : SloState) :
  kind s = SLO ->
  (validateState s !! "timeWindowCount" = Some "Must be a positive integer"
   <-> numTruthy (timeWindowCount s) = false
       \/ num_le (timeWindowCount s) (ofZ 0) = true
       \/ isInteger (timeWindowCount s) = false)
  /\ (validateState s !! "timeWindowCount" = None
      <-> numTruthy (timeWindowCount s) = true
          /\ num_le (timeWindowCount s) (ofZ 0) = false
          /\ isInteger (timeWindowCount s) = true)
  /\ validateState (withTimeWindowCount (ofZ 1) s) !! "timeWindowCount"
     = None
  /\ Forall (fun c => is_Some (validateState (withTimeWindowCount c s)
                                 !! "timeWindowCount"))
       [ofZ 0; ofZ (-5); decimal 25 1].
Proof.
  intros Hk.
  change "timeWindowCount" with (ruleKey RTimeWindowCount).
  rewrite !validateState_lookup.
  unfold breaks, message. cbn [kind timeWindowCount withTimeWindowCount].
  rewrite Hk. cbn [isSLO andb].
  rewrite <- !positiveInteger_spec.
  split; [| split; [| split]].
  - destruct (numTruthy (timeWindowCount s)),
      (num_le (timeWindowCount s) (ofZ 0)),
      (isInteger (timeWindowCount s)); cbn [negb orb];
      split; intros H; try done; auto; by destruct H as [H | [H | H]].
  - destruct (numTruthy (timeWindowCount s)),
      (num_le (timeWindowCount s) (ofZ 0)),
      (isInteger (timeWindowCount s)); cbn [negb orb];
      split; intros H; try done; by destruct H as (H1 & H2 & H3).
  - vm_compute. reflexivity.
  - each_elem ltac:(change "timeWindowCount" with (ruleKey RTimeWindowCount);
                    rewrite validateState_lookup;
                    cbn [breaks kind timeWindowCount withTimeWindowCount];
                    rewrite Hk; vm_compute; eexists; reflexivity).
Qed.

Lemma timeWindowCount_rule_witness :
  kind DEFAULT_SLO_STATE = SLO
  /\ validateState DEFAULT_SLO_STATE !! "timeWindowCount" = None.
Proof.
  split; [reflexivity |].
  apply (proj1 (proj2 (timeWindowCount_rule DEFAULT_SLO_STATE eq_refl))).
  vm_compute. repeat split; reflexivity.
Defined.

(** ** The blank-line pattern *)

Lemma isSpace_lf c : (c =? 10)%N = true -> isSpace c = true.
Proof. intros H. apply N.eqb_eq in H. by subst c. Qed.

Lemma isLineTerminator_space c :
  isLineTerminator c = true -> isSpace c = true.
Proof.
  unfold isLineTerminator. rewrite !orb_true_iff, !N.eqb_eq.
  intros [[[-> | ->] | ->] | ->]; reflexivity.
Qed.

Lemma matchStar_afterBlank (K : option char -> jsstring -> option jsstring) :
  (forall p s, K p s = match s with
                       | c :: t => if (c =? 10)%N then Some t else None
                       | [] => None
                       end) ->
  forall s prev, matchStar isSpace prev s K = afterBlank s.
Proof.
  intros HK s. induction s as [| c t IH]; intros prev.
  - cbn. by rewrite HK.
  - cbn [matchStar afterBlank]. rewrite IH, HK.
    destruct (isSpace c) eqn:Hc; [reflexivity |].
    destruct (c =? 10)%N eqn:Hlf; [| reflexivity].
    by rewrite (isSpace_lf _ Hlf) in Hc.
Qed.

Lemma matchAt_blankLine prev s :
  matchAt flagsGM blankLineRegex prev s
  = if atLineStart flagsGM prev then afterBlank s else None.
Proof.
  unfold matchAt, blankLineRegex. cbn [matchRe].
  destruct (atLineStart flagsGM prev); [| reflexivity].
  apply matchStar_afterBlank. intros p [| c t]; reflexivity.
Qed.

Lemma afterBlank_split s r :
  afterBlank s = Some r ->
  exists w, s = w ++ 10%N :: r /\ forallb isSpace w = true
            /\ afterBlank r = None.
Proof.
  revert r. induction s as [| c t IH]; intros r H; [done |].
  cbn [afterBlank] in H. destruct (isSpace c) eqn:Hc; [| done].
  destruct (afterBlank t) as [r' |] eqn:Ht.
  - injection H as ->. destruct (IH r eq_refl) as (w & -> & Hw & Hr).
    exists (c :: w). cbn [forallb]. by rewrite Hc, Hw.
  - destruct (c =? 10)%N eqn:Hlf; [| done]. injection H as ->.
    apply N.eqb_eq in Hlf as ->. by exists [].
Qed.

Lemma afterBlank_lf t : afterBlank (10%N :: t) <> None.
Proof. cbn. by destruct (afterBlank t). Qed.

Lemma afterBlank_tail c t :
  isSpace c = true -> afterBlank (c :: t) = None -> afterBlank t = None.
Proof.
  intros Hc H. cbn [afterBlank] in H. rewrite Hc in H.
  by destruct (afterBlank t).
Qed.

(** Dropping the rest of a match that is under way. *)
Lemma deleteFrom_skip f r w : forall prev t,
  deleteFrom f r prev (w ++ t) (length w)
  = deleteFrom f r (match last w with Some c => Some c | None => prev end) t 0.
Proof.
  induction w as [| c w IH]; intros prev t; [reflexivity |].
  cbn [Datatypes.app length deleteFrom]. rewrite IH.
  destruct w as [| c' w]; [reflexivity |].
  rewrite last_cons_cons.
  destruct (last (c' :: w)) eqn:Hl; [reflexivity |].
  by apply last_None in Hl.
Qed.

Lemma strip_blank w r : forall p,
  forallb isSpace w = true ->
  strip (Some p) (w ++ 10%N :: r) = strip (Some []) r.
Proof.
  induction w as [| c w IH]; intros p Hw; [reflexivity |].
  cbn [forallb] in Hw. apply andb_true_iff in Hw as [Hc Hw].
  cbn [Datatypes.app strip]. rewrite Hc.
  destruct (c =? 10)%N; by apply IH.
Qed.

(** Held-back white space that no line feed follows is released as it
    stands. *)
Lemma strip_release t : forall p,
  afterBlank t = None -> strip (Some p) t = p ++ strip (Some []) t.
Proof.
  induction t as [| c t IH]; intros p H.
  - cbn. by rewrite app_nil_r.
  - cbn [strip]. destruct (c =? 10)%N eqn:Hlf.
    { apply N.eqb_eq in Hlf as ->. by apply afterBlank_lf in H. }
    destruct (isSpace c) eqn:Hc; [| reflexivity].
    apply afterBlank_tail in H; [| done].
    cbn [Datatypes.app].
    rewrite (IH (p ++ [c]) H), (IH [c] H). by rewrite <- app_assoc.
Qed.

Lemma strip_no_match t :
  afterBlank t = None -> strip (Some []) t = strip None t.
Proof.
  induction t as [| c t IH]; intros H; [reflexivity |].
  cbn [strip]. destruct (c =? 10)%N eqn:Hlf.
  { apply N.eqb_eq in Hlf as ->. by apply afterBlank_lf in H. }
  destruct (isSpace c) eqn:Hc.
  - apply afterBlank_tail in H; [| done].
    cbn [Datatypes.app].
    rewrite (strip_release t [c] H). cbn [Datatypes.app]. f_equal.
    destruct (isLineTerminator c); [reflexivity | by apply IH].
  - cbn [Datatypes.app]. f_equal.
    destruct (isLineTerminator c) eqn:Hlt; [| reflexivity].
    by rewrite (isLineTerminator_space _ Hlt) in Hc.
Qed.

(** Deleting every match of the blank-line pattern is the one-pass
    scanner. *)
Lemma deleteFrom_strip n : forall s prev,
  length s <= n ->
  deleteFrom flagsGM blankLineRegex prev s 0
  = strip (if atLineStart flagsGM prev then Some [] else None) s.
Proof.
  induction n as [| n IH]; intros s prev Hn.
  { destruct s; [| cbn in Hn; lia]. by destruct (atLineStart flagsGM prev). }
  destruct s as [| c t]; [by destruct (atLineStart flagsGM prev) |].
  cbn [length] in Hn.
  assert (Hnext : atLineStart flagsGM (Some c) = isLineTerminator c)
    by reflexivity.
  cbn [deleteFrom]. rewrite matchAt_blankLine.
  destruct (atLineStart flagsGM prev).
  - destruct (afterBlank (c :: t)) as [r |] eqn:Hm.
    + destruct (afterBlank_split _ _ Hm) as (w & Hs & Hw & Hr).
      rewrite Hs at 2. rewrite (strip_blank w r [] Hw).
      assert (Hlen : length (c :: t) - length r = S (length w)).
      { rewrite Hs, length_app. cbn [length]. lia. }
      rewrite Hlen.
      assert (Hr_len : length r <= n).
      { apply (f_equal length) in Hs. rewrite length_app in Hs.
        cbn [length] in Hs. lia. }
      destruct w as [| c' w]; cbn [Datatypes.app] in Hs; injection Hs as -> ->.
      * cbn [length]. by rewrite (IH r (Some 10%N) Hr_len).
      * replace (w ++ 10%N :: r) with ((w ++ [10%N]) ++ r)
          by (by rewrite <- app_assoc).
        replace (length (c' :: w)) with (length (w ++ [10%N]))
          by (rewrite length_app; cbn [length]; lia).
        rewrite deleteFrom_skip, last_snoc.
        by rewrite (IH r (Some 10%N) Hr_len).
    + rewrite (strip_no_match _ Hm). cbn [strip]. f_equal.
      rewrite (IH t (Some c)) by lia. by rewrite Hnext.
  - cbn [strip]. f_equal. rewrite (IH t (Some c)) by lia. by rewrite Hnext.
Qed.

Lemma deleteAll_strip s :
  deleteAll flagsGM blankLineRegex s = strip (Some []) s.
Proof. unfold deleteAll. by rewrite (deleteFrom_strip (length s)). Qed.

(** ** Lines *)

Lemma split_nonempty sep s : split sep s <> [].
Proof.
  destruct s as [| c t]; [done |]. cbn [split].
  destruct (c =? sep)%N; [done |]. by destruct (split sep t).
Qed.

Lemma split_app_sep sep a b :
  split sep (a ++ sep :: b) = split sep a ++ split sep b.
Proof.
  induction a as [| c a IH].
  - cbn. by rewrite N.eqb_refl.
  - cbn [Datatypes.app split]. rewrite IH.
    destruct (c =? sep)%N; [reflexivity |].
    pose proof (split_nonempty sep a) as Hne.
    by destruct (split sep a).
Qed.

Lemma split_no_sep sep a :
  forallb (fun c => negb (c =? sep)%N) a = true -> split sep a = [a].
Proof.
  induction a as [| c a IH]; intros H; [reflexivity |].
  cbn [forallb] in H. apply andb_true_iff in H as [Hc Ha].
  cbn [split]. apply negb_true_iff in Hc. by rewrite Hc, (IH Ha).
Qed.

Lemma split_parts_no_sep sep s :
  Forall (fun l => forallb (fun c => negb (c =? sep)%N) l = true)
    (split sep s).
Proof.
  induction s as [| c t IH]; [by repeat constructor |].
  cbn [split]. destruct (c =? sep)%N eqn:Hc.
  - by constructor.
  - pose proof (split_nonempty sep t) as Hne.
    destruct (split sep t) as [| l ls]; [done |].
    inversion IH as [| ? ? Hl Hls]; subst.
    constructor; [| done]. cbn [forallb]. by rewrite Hc, Hl.
Qed.

Lemma split_join sep parts :
  parts <> [] ->
  Forall (fun l => forallb (fun c => negb (c =? sep)%N) l = true) parts ->
  split sep (join [sep] parts) = parts.
Proof.
  induction parts as [| p ps IH]; intros Hne H; [done |].
  inversion H as [| ? ? Hp Hps]; subst.
  destruct ps as [| q ps].
  - cbn [join]. by apply split_no_sep.
  - change (join [sep] (p :: q :: ps)) with (p ++ sep :: join [sep] (q :: ps)).
    rewrite split_app_sep, (split_no_sep _ _ Hp), IH; done.
Qed.

(** Indenting a text prefixes each of its lines. *)
Lemma lines_indentLines prefix s :
  forallb (fun c => negb (c =? nl)%N) prefix = true ->
  lines (indentLines prefix s) = map (fun line => prefix ++ line) (lines s).
Proof.
  intros Hp. unfold lines, indentLines, eol. apply split_join.
  - pose proof (split_nonempty nl s). by destruct (split nl s).
  - pose proof (split_parts_no_sep nl s) as H.
    induction H as [| l ls Hl Hls IH]; constructor; [| done].
    by rewrite forallb_app, Hp, Hl.
Qed.

Lemma lines_app_nl a b : lines (a ++ nl :: b) = lines a ++ lines b.
Proof. apply split_app_sep. Qed.

(** ** Texts the scanner treats alike *)

Lemma stripEq_refl a : stripEq a a.
Proof. by intros st. Qed.

Lemma stripEq_trans a b c : stripEq a b -> stripEq b c -> stripEq a c.
Proof. intros H1 H2 st. by rewrite H1. Qed.

Lemma stripEq_cons c a b : stripEq a b -> stripEq (c :: a) (c :: b).
Proof.
  intros H [w |]; cbn [strip]; by rewrite !H.
Qed.

Lemma stripEq_app p a b : stripEq a b -> stripEq (p ++ a) (p ++ b).
Proof.
  intros H. induction p as [| c p IH]; [exact H |].
  cbn [Datatypes.app]. by apply stripEq_cons.
Qed.

(** A line of white space is dropped together with its line feed. *)
Lemma stripEq_blank_line w r :
  forallb isSpace w = true ->
  stripEq (10%N :: w ++ 10%N :: r) (10%N :: r).
Proof.
  intros Hw [p |].
  - change (strip (Some p) (10%N :: w ++ 10%N :: r))
      with (strip (Some []) (w ++ 10%N :: r)).
    by rewrite (strip_blank w r [] Hw).
  - change (strip None (10%N :: w ++ 10%N :: r))
      with (10%N :: strip (Some []) (w ++ 10%N :: r)).
    by rewrite (strip_blank w r [] Hw).
Qed.

(** ** Nothing blank is left *)

Lemma searchFrom_noBlank s : forall prev,
  searchFrom flagsGM blankLineRegex prev s
  = negb (noBlank (atLineStart flagsGM prev) s).
Proof.
  induction s as [| c t IH]; intros prev.
  - cbn [searchFrom noBlank]. rewrite matchAt_blankLine.
    by destruct (atLineStart flagsGM prev).
  - cbn [searchFrom noBlank]. rewrite matchAt_blankLine, IH.
    change (atLineStart flagsGM (Some c)) with (isLineTerminator c).
    destruct (atLineStart flagsGM prev); cbn [negb orb andb];
      [| reflexivity].
    by destruct (afterBlank (c :: t)).
Qed.

Lemma inlineSpace_cons c w :
  inlineSpace (c :: w) = true ->
  isSpace c = true /\ (c =? 10)%N = false /\ inlineSpace w = true.
Proof.
  unfold inlineSpace. cbn [forallb]. rewrite !andb_true_iff, negb_true_iff.
  tauto.
Qed.

Lemma inlineSpace_snoc c w :
  inlineSpace w = true -> isSpace c = true -> (c =? 10)%N = false ->
  inlineSpace (w ++ [c]) = true.
Proof.
  intros Hw Hc Hlf. unfold inlineSpace in *.
  rewrite forallb_app, Hw. cbn. by rewrite Hc, Hlf.
Qed.

Lemma afterBlank_inline w rest :
  inlineSpace w = true -> afterBlank rest = None ->
  afterBlank (w ++ rest) = None.
Proof.
  intros Hw Hr. induction w as [| c w IH]; [exact Hr |].
  apply inlineSpace_cons in Hw as (Hc & Hlf & Hw).
  cbn [Datatypes.app afterBlank]. by rewrite Hc, (IH Hw), Hlf.
Qed.

Lemma afterBlank_nonspace x rest :
  isSpace x = false -> afterBlank (x :: rest) = None.
Proof. intros Hx. cbn [afterBlank]. by rewrite Hx. Qed.

Lemma noBlank_release w x rest : forall ls,
  inlineSpace w = true -> isSpace x = false ->
  noBlank false rest = true ->
  noBlank ls (w ++ x :: rest) = true.
Proof.
  induction w as [| c w IH]; intros ls Hw Hx Hrest.
  - cbn [Datatypes.app noBlank]. rewrite (afterBlank_nonspace _ _ Hx).
    destruct (isLineTerminator x) eqn:Hlt.
    { by rewrite (isLineTerminator_space _ Hlt) in Hx. }
    rewrite Hrest. by destruct ls.
  - pose proof Hw as Hw'.
    apply inlineSpace_cons in Hw as (Hc & Hlf & Hw).
    change ((c :: w) ++ x :: rest) with (c :: (w ++ x :: rest)).
    cbn [noBlank]. rewrite (IH _ Hw Hx Hrest).
    change (c :: (w ++ x :: rest)) with ((c :: w) ++ x :: rest).
    rewrite (afterBlank_inline _ _ Hw' (afterBlank_nonspace _ _ Hx)).
    by destruct ls.
Qed.

Lemma noBlank_inline w : forall ls, inlineSpace w = true -> noBlank ls w = true.
Proof.
  induction w as [| c w IH]; intros ls Hw; [by destruct ls |].
  pose proof Hw as Hw'.
  apply inlineSpace_cons in Hw as (Hc & Hlf & Hw).
  cbn [noBlank]. rewrite (IH _ Hw).
  replace (c :: w) with ((c :: w) ++ []) by apply app_nil_r.
  rewrite (afterBlank_inline (c :: w) [] Hw' eq_refl). by destruct ls.
Qed.

Lemma strip_noBlank s :
  noBlank false (strip None s) = true
  /\ (forall w, inlineSpace w = true ->
                noBlank true (strip (Some w) s) = true).
Proof.
  induction s as [| c t [IHn IHs]].
  - split; [reflexivity |]. intros w Hw. by apply noBlank_inline.
  - split.
    + cbn [strip noBlank negb orb andb].
      destruct (isLineTerminator c); [by apply IHs | exact IHn].
    + intros w Hw. cbn [strip].
      destruct (c =? 10)%N eqn:Hlf; [by apply IHs |].
      destruct (isSpace c) eqn:Hc.
      * apply IHs. by apply inlineSpace_snoc.
      * by apply noBlank_release.
Qed.

(** After the deletion the blank-line pattern matches nowhere. *)
Lemma deleteAll_no_blank s :
  test flagsGM blankLineRegex (deleteAll flagsGM blankLineRegex s) = false.
Proof.
  unfold test. rewrite searchFrom_noBlank, deleteAll_strip.
  cbn [atLineStart]. by rewrite (proj2 (strip_noBlank s) [] eq_refl).
Qed.

(** ** The shape of the generated document *)

Lemma generateYaml_total (s : SloState) : exists out, generateYaml s = Ok out.
Proof.
  destruct s as [i av k n dn de sv ap bm tg twc twu twr im ir it rm tm].
  destruct it, tm as [tm |], rm as [[[g |] [b |] tt] |], k;
    eexists; reflexivity.
Qed.

Lemma concat_init2 (init : list (list N)) (e x : list N) :
  concat (init ++ [e; x]) = concat init ++ e ++ x.
Proof. rewrite concat_app. cbn [concat]. by rewrite app_nil_r. Qed.

(** All but the last two pieces of a template, and those two. *)
Ltac init2 L :=
  lazymatch L with
  | [_; _] => constr:(@nil (list N))
  | ?a :: ?t => let r := init2 t in constr:(a :: r)
  end.
Ltac last2 L :=
  lazymatch L with
  | [?e; ?x] => constr:((e, x))
  | _ :: ?t => last2 t
  end.
(** Split a document [concat [...; e; x]] into its head, [e] and [x]. *)
Ltac split_document :=
  lazymatch goal with
  | |- Ok (concat ?L) = _ =>
      let I := init2 L in
      lazymatch last2 L with
      | (?e, ?x) =>
          change (concat L) with (concat (I ++ [e; x]));
          rewrite (concat_init2 I e x)
      end
  end.

(** Walk two texts in step up to a blank line of the first, drop it,
    and go on. *)
Ltac peel :=
  repeat first
    [ apply stripEq_refl
    | lazymatch goal with
      | |- stripEq (10%N :: 32%N :: 32%N :: 10%N :: _) _ =>
          eapply stripEq_trans;
          [apply (stripEq_blank_line [32%N; 32%N]); reflexivity |]
      end
    | apply stripEq_cons
    | apply stripEq_app ].

(** Evaluate the literals of a text and flatten it. *)
Ltac flatten_text :=
  repeat match goal with
         | |- context [str ?s] =>
             let v := eval vm_compute in (str s) in
             change (str s) with v
         end;
  unfold eol, nl;
  cbn [concat Datatypes.app];
  rewrite ?app_nil_r.

Lemma ratio_template_stripEq (g b : option MetricSource) (tt : MetricSource) :
  stripEq
    (concat [ str "ratioMetric:"; eol;
              str "  ";
              match g with
              | Some g =>
                  concat [ str "good:"; eol;
                           str "    metricSource:"; eol;
                           str "      type: "; type_ g; eol;
                           str "      spec:"; eol;
                           str "        query: >-"; eol;
                           str "          "; query g ]
              | None => []
              end; eol;
              str "  ";
              match b with
              | Some b =>
                  concat [ str "bad:"; eol;
                           str "    metricSource:"; eol;
                           str "      type: "; type_ b; eol;
                           str "      spec:"; eol;
                           str "        query: >-"; eol;
                           str "          "; query b ]
              | None => []
              end; eol;
              str "  total:"; eol;
              str "    metricSource:"; eol;
              str "      type: "; type_ tt; eol;
              str "      spec:"; eol;
              str "        query: >-"; eol;
              str "          "; query tt ])
    (ratioBlock {| good := g; bad := b; total := tt |}).
Proof.
  unfold ratioBlock, sourceEntry. cbn [good bad total].
  destruct g as [g |], b as [b |]; flatten_text; peel.
Qed.

Lemma document_cong (head x1 x2 : list N) :
  x1 = x2 -> @Ok (list N) (head ++ eol ++ x1) = Ok (head ++ nl :: x2).
Proof. by intros ->. Qed.

Lemma withIndicator_same s :
  withIndicator (indicatorMode s) (indicatorRef s) s = s.
Proof. by destruct s. Qed.

(** The document is a head that does not depend on the indicator
    fields, a line feed, and the indicator part. *)
Lemma section_cong (pre b1 b2 : list N) :
  b1 = b2 ->
  concat [str "  indicator:"; eol; indentLines pre b1]
  = str "  indicator:" ++ nl :: indentLines pre b2.
Proof. intros ->. cbn [concat]. by rewrite app_nil_r. Qed.

(** The metric block of the generator against the specified one. *)
Ltac body_eq :=
  lazymatch goal with
  | |- deleteAll _ _ _
       = deleteAll _ _ (ratioBlock {| good := ?g; bad := ?b; total := ?t |}) =>
      rewrite !deleteAll_strip;
      exact (ratio_template_stripEq g b t (Some []))
  | |- deleteAll _ _ _ = deleteAll _ _ _ => reflexivity
  end.

Lemma generateYaml_shape (s : SloState) :
  exists head,
    forall m r,
      generateYaml (withIndicator m r s)
      = Ok (head ++ nl ::
              match kind s with
              | SLI => indentLines (str "  ") (indicatorBody s)
              | SLO => indicatorSection m r (indicatorBody s)
              end).
Proof.
  destruct s as [i av k n dn de sv ap bm tg twc twu twr im ir it rm tm].
  destruct k, it;
    [ destruct rm as [[[g |] [b |] tt] |] | destruct tm as [tm |]
    | destruct rm as [[[g |] [b |] tt] |] | destruct tm as [tm |] ].
  all: eexists; intros m r.
  all: unfold generateYaml, indicatorSection, indicatorBody.
  all: cbn [apiVersion kind name displayName description service app
            budgetingMethod target timeWindowCount timeWindowUnit
            timeWindowRolling indicatorMode indicatorRef indicatorType
            ratioMetric thresholdMetric withIndicator
            isThreshold isRatio defined andb member mbind result_bind
            mret result_ret good bad total isSLI].
  all: change (@mret result _ (list N)) with (@Ok (list N)).
  all: try destruct (isReference m && optTruthy r).
  all: split_document; apply document_cong.
  all: lazymatch goal with
       | |- indentLines _ _ = indentLines _ _ =>
           apply (f_equal (indentLines _)); body_eq
       | |- concat _ = _ => apply section_cong; body_eq
       | |- _ => reflexivity
       end.
Qed.

(** ** Blank strings *)

Lemma trimStart_nil s : trimStart s = [] <-> forallb isSpace s = true.
Proof.
  induction s as [| c t IH]; [done |].
  cbn [trimStart forallb]. destruct (isSpace c); [exact IH | done].
Qed.

Lemma trimStart_head s c t : trimStart s = c :: t -> isSpace c = false.
Proof.
  induction s as [| x s IH]; [done |]. cbn [trimStart].
  destruct (isSpace x) eqn:Hx; [exact IH |]. by intros [= <- _].
Qed.

Lemma forallb_rev {A} (p : A -> bool) (l : list A) :
  forallb p (rev l) = forallb p l.
Proof.
  induction l as [| x l IH]; [reflexivity |].
  cbn [rev forallb]. rewrite forallb_app, IH. cbn [forallb].
  rewrite andb_true_r. apply andb_comm.
Qed.

(** Blank after trimming: every unit is white space. *)
Lemma blank_spec s : blank s = true <-> forallb isSpace s = true.
Proof.
  unfold blank, trim, trimEnd. rewrite negb_true_iff, truthy_nil.
  rewrite <- trimStart_nil. split.
  - intros H. apply (f_equal (@rev N)) in H. rewrite rev_involutive in H.
    cbn in H. apply trimStart_nil in H. rewrite forallb_rev in H.
    destruct (trimStart s) as [| c t] eqn:Hs; [done |].
    apply trimStart_head in Hs. cbn [forallb] in H. by rewrite Hs in H.
  - by intros ->.
Qed.

(** ** The generator on chosen inputs *)

(** C2 at the failing input: a NaN target is accepted by the validator
    and written out by the generator. *)
Theorem nan_target_accepted :
  (forall s, validateState (withKind SLO (withTarget (Val NaN) s)) !! "target"
             = None)
  /\ validateState (withTarget (Val NaN) DEFAULT_SLO_STATE) = ∅
  /\ exists out,
       generateYaml (withTarget (Val NaN) DEFAULT_SLO_STATE) = Ok out
       /\ In (str "      target: NaN") (lines out).
Proof.
  split; [| split].
  - intros s. change "target" with (ruleKey RTarget).
    by rewrite validateState_lookup.
  - apply validateState_empty. intros r. by destruct r; vm_compute.
  - eexists. split; [vm_compute; reflexivity |].
    vm_compute. tauto.
Qed.

(** C3 at the failing input: the blank line inside a query is deleted,
    so two different queries give the same document. *)
Theorem blank_line_in_query_lost :
  twoLinesApart <> twoLines
  /\ generateYaml (thresholdWithQuery twoLinesApart)
     = generateYaml (thresholdWithQuery twoLines)
  /\ exists out,
       generateYaml (thresholdWithQuery twoLinesApart) = Ok out
       /\ lines out
          = map str
              ["apiVersion: openslo/v1"; "kind: SLO"; "metadata:";
               "  name: my-service-availability";
               "  displayName: My Service Availability"; "spec:";
               "  description: Availability SLO for the core API service";
               "  service: core-api"; "  budgetingMethod: occurrences";
               "  objectives:";
               "    - displayName: My Service Availability";
               "      target: 0.999"; "      timeWindow:";
               "        - rolling: true"; "          count: 28";
               "          unit: d"; "  indicator:"; "    thresholdMetric:";
               "      metricSource:"; "        type: prometheus";
               "        spec:"; "          query: >-"; "            a";
               "    b"; "      operator: lte"; "      value: 0.5"]%string.
Proof.
  split; [by vm_compute |]. split; [by vm_compute |].
  eexists. split; by vm_compute.
Qed.

Lemma indicatorBody_withKind k s : indicatorBody (withKind k s) = indicatorBody s.
Proof. reflexivity. Qed.

Lemma withKind_same s : withKind (kind s) s = s.
Proof. by destruct s. Qed.

(** The document of a configuration, by its kind. *)
Lemma generateYaml_document (s : SloState) :
  exists head,
    generateYaml s
    = Ok (head ++ nl ::
            match kind s with
            | SLI => indentLines (str "  ") (indicatorBody s)
            | SLO =>
                indicatorSection (indicatorMode s) (indicatorRef s)
                  (indicatorBody s)
            end).
Proof.
  destruct (generateYaml_shape s) as [head H]. exists head.
  by rewrite <- (H (indicatorMode s) (indicatorRef s)), withIndicator_same.
Qed.

(** C4 (amended). In an SLO document the head does not depend on the
    indicator fields, and the indicator section is the flat key
    [indicatorRef: <name>] when the mode is [reference] and the name is
    not empty, and otherwise the key [indicator:] followed by the
    indicator body indented one level further than in an SLI document;
    the reference template renders [indicatorRef: worker-latency-sli] and
    no [indicator:], the default configuration an [indicator:] block with
    [thresholdMetric:] and no [indicatorRef:]. *)
Theorem indicator_section (s : SloState) :
  kind s = SLO ->
  (exists head,
     (forall ref, ref <> [] ->
        generateYaml (withIndicator reference (Some ref) s)
        = Ok (head ++ nl :: str "  indicatorRef: " ++ ref))
     /\ (forall m r, m = inline \/ r = None \/ r = Some [] ->
           generateYaml (withIndicator m r s)
           = Ok (head ++ nl :: str "  indicator:" ++ nl ::
                   indentLines (str "    ") (indicatorBody s))))
  /\ (exists head',
        generateYaml (withKind SLI s)
        = Ok (head' ++ nl :: indentLines (str "  ") (indicatorBody s)))
  /\ (exists out,
        generateYaml template_sliReference = Ok out
        /\ includes (str "indicatorRef: worker-latency-sli") out = true
        /\ includes (str "indicator:") out = false)
  /\ (exists out,
        generateYaml DEFAULT_SLO_STATE = Ok out
        /\ In (str "  indicator:") (lines out)
        /\ In (str "    thresholdMetric:") (lines out)
        /\ includes (str "indicatorRef:") out = false).
Proof.
  intros Hk. split; [| split; [| split]].
  - destruct (generateYaml_shape s) as [head H]. rewrite Hk in H.
    exists head. split.
    + intros [| c ref] Href; [done |]. by rewrite H.
    + intros m r Hm. rewrite H. unfold indicatorSection.
      by destruct Hm as [-> | [-> | ->]]; try destruct m.
  - destruct (generateYaml_document (withKind SLI s)) as [head H].
    exists head. by rewrite H.
  - eexists. split; [vm_compute; reflexivity |]. by vm_compute.
  - eexists. split; [vm_compute; reflexivity |].
    split; [| split]; vm_compute; tauto.
Qed.

Lemma indicator_section_witness :
  kind DEFAULT_SLO_STATE = SLO
  /\ exists head',
       generateYaml (withKind SLI DEFAULT_SLO_STATE)
       = Ok (head' ++ nl ::
               indentLines (str "  ") (indicatorBody DEFAULT_SLO_STATE)).
Proof.
  split; [reflexivity |].
  exact (proj1 (proj2 (indicator_section DEFAULT_SLO_STATE eq_refl))).
Defined.

(** C4 as stated fails: with the mode [reference] and no name, the
    document has an [indicator:] key and no [indicatorRef:] key. *)
Lemma indicator_section_counterexample :
  kind referenceWithoutName = SLO
  /\ indicatorMode referenceWithoutName = reference
  /\ exists out,
       generateYaml referenceWithoutName = Ok out
       /\ In (str "  indicator:") (lines out)
       /\ includes (str "indicatorRef:") out = false.
Proof.
  split; [reflexivity |]. split; [reflexivity |].
  eexists. split; [vm_compute; reflexivity |].
  split; vm_compute; tauto.
Qed.

Lemma strip_ratio_bad_first rest :
  strip (Some [])
    (str "ratioMetric:" ++ eol ++ str "  bad:" ++ eol ++ rest)
  = str "ratioMetric:" ++ nl :: str "  bad:" ++ nl :: strip (Some []) rest.
Proof. reflexivity. Qed.

Lemma strip_ratio_good_first rest :
  strip (Some [])
    (str "ratioMetric:" ++ eol ++ str "  good:" ++ eol ++ rest)
  = str "ratioMetric:" ++ nl :: str "  good:" ++ nl :: strip (Some []) rest.
Proof. reflexivity. Qed.

Lemma ratioBlock_bad_first rm b :
  good rm = None -> bad rm = Some b ->
  exists rest,
    ratioBlock rm = str "ratioMetric:" ++ eol ++ str "  bad:" ++ eol ++ rest.
Proof.
  intros Hg Hb. unfold ratioBlock, sourceEntry. rewrite Hg, Hb.
  eexists. cbn [concat]. rewrite !app_nil_l, <- !app_assoc. reflexivity.
Qed.

Lemma ratioBlock_good_first rm g :
  good rm = Some g ->
  exists rest,
    ratioBlock rm = str "ratioMetric:" ++ eol ++ str "  good:" ++ eol ++ rest.
Proof.
  intros Hg. unfold ratioBlock, sourceEntry. rewrite Hg.
  eexists. cbn [concat]. rewrite <- !app_assoc. reflexivity.
Qed.



(** C9. The generator returns a document for every configuration (no
    member of an absent object is ever read), and where data that a
    rule needs is absent the validator reports it under the rule's key:
    an absent metric of the selected type, an absent reference name, a
    blank name or display name; the indicator body of a configuration
    without the selected metric is empty. *)
Theorem core_total (s : SloState) :
  (exists out, generateYaml s = Ok out)
  /\ (metricsApply s = true -> indicatorType s = threshold ->
      thresholdMetric s = None ->
      validateState s !! "thresholdQuery" = Some "Query is required"
      /\ validateState s !! "thresholdValue"
         = Some "Threshold value is required"
      /\ indicatorBody s = [])
  /\ (metricsApply s = true -> indicatorType s = ratio ->
      ratioMetric s = None ->
      validateState s !! "ratioTotal" = Some "Total query is required"
      /\ validateState s !! "ratioGoodBad"
         = Some "Either Good or Bad metric query is required"
      /\ indicatorBody s = [])
  /\ (kind s = SLO -> indicatorMode s = reference -> indicatorRef s = None ->
      validateState s !! "indicatorRef"
      = Some "SLI Reference name is required")
  /\ (blank (name s) = true ->
      validateState s !! "name" = Some "Name is required")
  /\ (blank (displayName s) = true ->
      validateState s !! "displayName" = Some "Display Name is required").
Proof.
  split; [apply generateYaml_total |].
  split; [| split; [| split; [| split]]].
  - intros Hm Ht Htm.
    change "thresholdQuery" with (ruleKey RThresholdQuery).
    change "thresholdValue" with (ruleKey RThresholdValue).
    rewrite !validateState_lookup. unfold breaks, indicatorBody.
    by rewrite Hm, Ht, Htm.
  - intros Hm Ht Hrm.
    change "ratioTotal" with (ruleKey RRatioTotal).
    change "ratioGoodBad" with (ruleKey RRatioGoodBad).
    rewrite !validateState_lookup. unfold breaks, indicatorBody.
    by rewrite Hm, Ht, Hrm.
  - intros Hk Hm Hr. change "indicatorRef" with (ruleKey RIndicatorRef).
    rewrite validateState_lookup. unfold breaks. by rewrite Hk, Hm, Hr.
  - intros Hn. change "name" with (ruleKey RName).
    rewrite validateState_lookup. unfold breaks, message. by rewrite Hn.
  - intros Hn. change "displayName" with (ruleKey RDisplayName).
    rewrite validateState_lookup. unfold breaks. by rewrite Hn.
Qed.

Lemma core_total_witness :
  blank (name (withName [] DEFAULT_SLO_STATE)) = true
  /\ validateState (withName [] DEFAULT_SLO_STATE) !! "name"
     = Some "Name is required".
Proof.
  split; [reflexivity |].
  exact (proj1 (proj2 (proj2 (proj2 (proj2
           (core_total (withName [] DEFAULT_SLO_STATE)))))) eq_refl).
Defined.

(** ** Lines of the indicator part *)

Lemma lines_literal_line a b : 
  forallb (fun c => negb (c =? nl)%N) a = true ->
  In a (lines (a ++ nl :: b)).
Proof.
  intros Ha. rewrite lines_app_nl. apply in_or_app. left.
  unfold lines. rewrite (split_no_sep _ _ Ha). by left.
Qed.

Lemma In_lines_after a b l : In l (lines b) -> In l (lines (a ++ nl :: b)).
Proof. intros H. rewrite lines_app_nl. apply in_or_app. by right. Qed.

(** A line of the indicator body shows up, indented, in the document. *)
Lemma In_lines_indented head prefix body l :
  forallb (fun c => negb (c =? nl)%N) prefix = true ->
  In l (lines body) ->
  In (prefix ++ l) (lines (head ++ nl :: indentLines prefix body)).
Proof.
  intros Hp Hl. apply In_lines_after. rewrite (lines_indentLines _ _ Hp).
  by apply (in_map (fun line => prefix ++ line)).
Qed.

Lemma In_lines_document (s : SloState) (l : list N) :
  metricsApply s = true ->
  In l (lines (indicatorBody s)) ->
  exists out,
    generateYaml s = Ok out
    /\ In (match kind s with
           | SLI => str "  " ++ l
           | SLO => str "    " ++ l
           end) (lines out).
Proof.
  intros Hm Hl. destruct (generateYaml_document s) as [head H].
  eexists. split; [exact H |].
  unfold metricsApply in Hm. destruct (kind s).
  - cbn in Hm. unfold indicatorSection.
    destruct (indicatorMode s); [| done]. cbn [isReference andb].
    apply In_lines_after.
    by apply (In_lines_indented (str "  indicator:") (str "    ")).
  - by apply In_lines_indented.
Qed.

(** Text up to a unit that is not white space is copied up to that
    unit, and the scanner is then inside a line. *)
Lemma strip_upto_nonspace p x : forall pending,
  isSpace x = false ->
  exists copied, forall rest,
    strip pending (p ++ x :: rest) = copied ++ x :: strip None rest.
Proof.
  assert (Hlt : isSpace x = false -> isLineTerminator x = false).
  { intros Hx. destruct (isLineTerminator x) eqn:H; [| done].
    by rewrite (isLineTerminator_space _ H) in Hx. }
  induction p as [| c p IH]; intros pending Hx.
  - assert (Hlf : (x =? 10)%N = false).
    { destruct (x =? 10)%N eqn:H; [| done].
      by rewrite (isSpace_lf _ H) in Hx. }
    destruct pending as [w |].
    + exists w. intros rest. cbn [Datatypes.app strip]. by rewrite Hlf, Hx.
    + exists []. intros rest. cbn [Datatypes.app strip]. by rewrite (Hlt Hx).
  - destruct pending as [w |]; cbn [Datatypes.app strip].
    + destruct (c =? 10)%N.
      { destruct (IH (Some []) Hx) as [o Ho]. by exists o. }
      destruct (isSpace c).
      { destruct (IH (Some (w ++ [c])) Hx) as [o Ho]. by exists o. }
      destruct (IH None Hx) as [o Ho]. exists (w ++ c :: o).
      intros rest. by rewrite Ho, <- app_assoc.
    + destruct (IH (if isLineTerminator c then Some [] else None) Hx)
        as [o Ho].
      exists (c :: o). intros rest. by rewrite Ho.
Qed.

(** After a good entry whose query is blank, the key of the next entry
    still gets a line of its own. *)
Lemma strip_blank_query_then_bad p q rest :
  forallb isSpace q = true ->
  exists copied,
    strip (Some [])
      (p ++ 45%N :: eol ++ str "          " ++ q ++ eol
         ++ str "  bad:" ++ eol ++ rest)
    = copied ++ nl :: str "  bad:" ++ nl :: strip (Some []) rest.
Proof.
  intros Hq.
  destruct (strip_upto_nonspace p 45%N (Some []) eq_refl) as [o Ho].
  exists (o ++ [45%N]). rewrite Ho.
  change (strip None (eol ++ str "          " ++ q ++ eol
                        ++ str "  bad:" ++ eol ++ rest))
    with (nl :: strip (Some []) (str "          " ++ q ++ eol
                                   ++ str "  bad:" ++ eol ++ rest)).
  replace (str "          " ++ q ++ eol ++ str "  bad:" ++ eol ++ rest)
    with ((str "          " ++ q) ++ 10%N :: str "  bad:" ++ eol ++ rest)
    by (by rewrite <- app_assoc).
  rewrite strip_blank by (by rewrite forallb_app, Hq).
  rewrite <- app_assoc. reflexivity.
Qed.

Lemma body_good_line rm g :
  good rm = Some g ->
  In (str "  good:") (lines (deleteAll flagsGM blankLineRegex (ratioBlock rm))).
Proof.
  intros Hg. rewrite deleteAll_strip.
  destruct (ratioBlock_good_first rm g Hg) as [rest ->].
  rewrite strip_ratio_good_first.
  apply In_lines_after. by apply lines_literal_line.
Qed.

Lemma ratioBlock_blank_good_then_bad rm g b :
  good rm = Some g -> bad rm = Some b ->
  exists p rest,
    ratioBlock rm
    = p ++ 45%N :: eol ++ str "          " ++ query g ++ eol
        ++ str "  bad:" ++ eol ++ rest.
Proof.
  intros Hg Hb. unfold ratioBlock, sourceEntry. rewrite Hg, Hb.
  exists (str "ratioMetric:" ++ eol ++ str "  good:" ++ eol
          ++ str "    metricSource:" ++ eol
          ++ str "      type: " ++ type_ g ++ eol
          ++ str "      spec:" ++ eol ++ str "        query: >").
  eexists.
  flatten_text. rewrite <- ?app_assoc. cbn [Datatypes.app].
  rewrite <- ?app_assoc. cbn [Datatypes.app].
  reflexivity.
Qed.

Lemma body_bad_line rm b :
  bad rm = Some b ->
  blankOpt (query <$> good rm) = true ->
  In (str "  bad:") (lines (deleteAll flagsGM blankLineRegex (ratioBlock rm))).
Proof.
  intros Hb Hgood. rewrite deleteAll_strip.
  destruct (good rm) as [g |] eqn:Hg.
  - cbn in Hgood. apply blank_spec in Hgood.
    destruct (ratioBlock_blank_good_then_bad rm g b Hg Hb)
      as (p & rest & ->).
    destruct (strip_blank_query_then_bad p (query g) rest Hgood)
      as [copied ->].
    apply In_lines_after. by apply lines_literal_line.
  - destruct (ratioBlock_bad_first rm b Hg Hb) as [rest ->].
    rewrite strip_ratio_bad_first.
    apply In_lines_after. by apply lines_literal_line.
Qed.

(** C10. For a ratio configuration under metric validation, an entry
    ([good] or [bad]) that exists with a blank query, the other one being
    absent or blank too, makes the validator report [ratioGoodBad] -- it
    goes by the trimmed query text -- while the generator still writes
    the entry's key on a line of its own -- it goes by the existence of
    the object. *)
Theorem presence_differs (s : SloState) (rm : RatioMetric) :
  metricsApply s = true ->
  indicatorType s = ratio ->
  ratioMetric s = Some rm ->
  (forall g,
     good rm = Some g -> blank (query g) = true ->
     blankOpt (query <$> bad rm) = true ->
     validateState s !! "ratioGoodBad"
     = Some "Either Good or Bad metric query is required"
     /\ exists out,
          generateYaml s = Ok out
          /\ In (match kind s with
                 | SLI => str "    good:"
                 | SLO => str "      good:"
                 end) (lines out))
  /\ (forall b,
        bad rm = Some b -> blank (query b) = true ->
        blankOpt (query <$> good rm) = true ->
        validateState s !! "ratioGoodBad"
        = Some "Either Good or Bad metric query is required"
        /\ exists out,
             generateYaml s = Ok out
             /\ In (match kind s with
                    | SLI => str "    bad:"
                    | SLO => str "      bad:"
                    end) (lines out))
  /\ (validateState ratioBlankGood
      = {[ "ratioGoodBad" := "Either Good or Bad metric query is required" ]}
      /\ exists out,
           generateYaml ratioBlankGood = Ok out
           /\ In (str "    good:") (lines out)).
Proof.
  intros Hm Ht Hrm.
  assert (Hbody : indicatorBody s
                  = deleteAll flagsGM blankLineRegex (ratioBlock rm))
    by (unfold indicatorBody; by rewrite Ht, Hrm).
  assert (Hline : forall l : list N,
            In l (lines (indicatorBody s)) ->
            exists out, generateYaml s = Ok out
              /\ In (match kind s with
                     | SLI => str "  " ++ l
                     | SLO => str "    " ++ l
                     end) (lines out))
    by (intros l; by apply In_lines_document).
  split; [| split].
  - intros g Hg Hq Hbad. split.
    + change "ratioGoodBad" with (ruleKey RRatioGoodBad).
      rewrite validateState_lookup. unfold breaks.
      rewrite Hm, Ht, Hrm. cbn [mbind option_bind]. rewrite Hg, Hbad.
      cbn [fmap option_fmap option_map blankOpt]. by rewrite Hq.
    + destruct (Hline (str "  good:")) as (out & Hout & Hin).
      { rewrite Hbody. by apply (body_good_line rm g). }
      exists out. split; [exact Hout |]. by destruct (kind s).
  - intros b Hb Hq Hgood. split.
    + change "ratioGoodBad" with (ruleKey RRatioGoodBad).
      rewrite validateState_lookup. unfold breaks.
      rewrite Hm, Ht, Hrm. cbn [mbind option_bind]. rewrite Hb, Hgood.
      cbn [fmap option_fmap option_map blankOpt]. by rewrite Hq.
    + destruct (Hline (str "  bad:")) as (out & Hout & Hin).
      { rewrite Hbody. by apply (body_bad_line rm b). }
      exists out. split; [exact Hout |]. by destruct (kind s).
  - split; [vm_compute; reflexivity |].
    eexists. split; [vm_compute; reflexivity |]. vm_compute. tauto.
Qed.

Lemma presence_differs_witness :
  metricsApply ratioBlankGood = true
  /\ validateState ratioBlankGood !! "ratioGoodBad"
     = Some "Either Good or Bad metric query is required".
Proof.
  split; [reflexivity |].
  exact (proj1 (proj1 (presence_differs ratioBlankGood _
                         eq_refl eq_refl eq_refl)
                  (prometheus []) eq_refl eq_refl eq_refl)).
Defined.

(** * Further properties of the editor *)

(** ** The blank-line deletion *)

Lemma inkOf_app a b : inkOf (a ++ b) = inkOf a ++ inkOf b.
Proof. apply filter_app. Qed.

Lemma inkOf_space c t : isSpace c = true -> inkOf (c :: t) = inkOf t.
Proof. intros H. unfold inkOf. by rewrite filter_cons_False by by rewrite H. Qed.

Lemma inkOf_ink c t : isSpace c = false -> inkOf (c :: t) = c :: inkOf t.
Proof. intros H. unfold inkOf. by rewrite filter_cons_True. Qed.

Lemma inkOf_spaces w : forallb isSpace w = true -> inkOf w = [].
Proof.
  induction w as [| c w IH]; [done |]. cbn [forallb].
  intros [Hc Hw]%andb_true_iff. by rewrite inkOf_space, IH.
Qed.

Lemma strip_ink s :
  inkOf (strip None s) = inkOf s
  /\ (forall w, forallb isSpace w = true ->
                inkOf (strip (Some w) s) = inkOf s).
Proof.
  induction s as [| c t [IHn IHs]].
  - split; [reflexivity |]. intros w Hw. cbn [strip]. by apply inkOf_spaces.
  - split.
    + cbn [strip]. destruct (isSpace c) eqn:Hc.
      * rewrite !inkOf_space by done.
        destruct (isLineTerminator c); [by apply IHs | exact IHn].
      * rewrite !inkOf_ink by done. f_equal.
        destruct (isLineTerminator c); [by apply IHs | exact IHn].
    + intros w Hw. cbn [strip].
      destruct (c =? 10)%N eqn:Hlf.
      { rewrite (inkOf_space c) by by apply isSpace_lf. by apply IHs. }
      destruct (isSpace c) eqn:Hc.
      * rewrite (inkOf_space c) by done. apply IHs.
        rewrite forallb_app, Hw. cbn. by rewrite Hc.
      * rewrite inkOf_app, (inkOf_spaces w Hw), !inkOf_ink by done.
        cbn [Datatypes.app]. by rewrite IHn.
Qed.

(** X1. The cleanup of the metric block deletes white space only: the
    units that are not white space come out unchanged and in order,
    and the text never grows. *)
Theorem deleteAll_keeps_ink (s : jsstring) :
  inkOf (deleteAll flagsGM blankLineRegex s) = inkOf s
  /\ length (deleteAll flagsGM blankLineRegex s) <= length s.
Proof.
  rewrite deleteAll_strip. split; [by apply strip_ink |].
  assert (H : forall t,
             length (strip None t) <= length t
             /\ forall w, length (strip (Some w) t) <= length w + length t).
  { induction t as [| c t [IHn IHs]].
    - split; [done |]. intros w. cbn. lia.
    - split.
      + cbn [strip length].
        destruct (isLineTerminator c); [specialize (IHs []); cbn in IHs |];
          lia.
      + intros w. cbn [strip length].
        destruct (c =? 10)%N; [specialize (IHs []); cbn in IHs; lia |].
        destruct (isSpace c).
        * specialize (IHs (w ++ [c])). rewrite length_app in IHs.
          cbn in IHs. lia.
        * rewrite length_app. cbn [length]. lia. }
  apply (proj2 (H s) []).
Qed.

Lemma strip_fixed s : forall ls,
  noBlank ls s = true ->
  strip (if ls then Some [] else None) s = s.
Proof.
  induction s as [| c t IH]; intros ls H; [by destruct ls |].
  cbn [noBlank] in H. apply andb_true_iff in H as [Hhere Hrest].
  assert (Hn : strip None (c :: t) = c :: t).
  { cbn [strip]. f_equal. by rewrite <- (IH _ Hrest) at 2. }
  destruct ls; [| exact Hn].
  cbn [negb orb] in Hhere. apply negb_true_iff in Hhere.
  destruct (afterBlank (c :: t)) eqn:Hm; [done |].
  by rewrite (strip_no_match _ Hm).
Qed.

(** X2. A text in which the blank-line pattern matches nowhere is left as
    it is, and a second cleanup changes nothing. *)
Theorem deleteAll_idempotent (s : jsstring) :
  (test flagsGM blankLineRegex s = false ->
   deleteAll flagsGM blankLineRegex s = s)
  /\ deleteAll flagsGM blankLineRegex
       (deleteAll flagsGM blankLineRegex s)
     = deleteAll flagsGM blankLineRegex s.
Proof.
  assert (Hfix : forall t, test flagsGM blankLineRegex t = false ->
                           deleteAll flagsGM blankLineRegex t = t).
  { intros t Ht. unfold test in Ht. rewrite searchFrom_noBlank in Ht.
    apply negb_false_iff in Ht. rewrite deleteAll_strip.
    exact (strip_fixed t true Ht). }
  split; [apply Hfix |]. apply Hfix, deleteAll_no_blank.
Qed.

Lemma deleteAll_idempotent_witness :
  test flagsGM blankLineRegex (str "a") = false
  /\ deleteAll flagsGM blankLineRegex (str "a") = str "a".
Proof.
  split; [reflexivity |].
  exact (proj1 (deleteAll_idempotent (str "a")) eq_refl).
Defined.

(** ** The document: head and indicator part *)

Lemma generateYaml_head (s : SloState) :
  generateYaml s = Ok (documentHead s ++ nl :: indicatorPart s).
Proof.
  destruct s as [i av k n dn de sv ap bm tg twc twu twr im ir it rm tm].
  destruct k, it;
    [ destruct rm as [[[g |] [b |] tt] |] | destruct tm as [tm |]
    | destruct rm as [[[g |] [b |] tt] |] | destruct tm as [tm |] ].
  all: unfold generateYaml, documentHead, metadataLabels, indicatorPart,
         indicatorSection, indicatorBody.
  all: cbn [apiVersion kind name displayName description service app
            budgetingMethod target timeWindowCount timeWindowUnit
            timeWindowRolling indicatorMode indicatorRef indicatorType
            ratioMetric thresholdMetric
            isThreshold isRatio defined andb member mbind result_bind
            mret result_ret good bad total isSLI].
  all: change (@mret result _ (list N)) with (@Ok (list N)).
  all: try destruct (isReference im && optTruthy ir).
  all: split_document; apply document_cong.
  all: lazymatch goal with
       | |- indentLines _ _ = indentLines _ _ =>
           apply (f_equal (indentLines _)); body_eq
       | |- concat _ = _ => apply section_cong; body_eq
       | |- _ => reflexivity
       end.
Qed.

Lemma metadataLabels_spec v :
  metadataLabels v
  = if blank v then []
    else eol ++ str "  labels:" ++ eol ++ str "    app: " ++ v.
Proof.
  unfold metadataLabels, blank. destruct v as [| c v]; [reflexivity |].
  cbn [truthy andb]. destruct (truthy (trim (c :: v))); [| reflexivity].
  cbn [negb concat]. by rewrite app_nil_r.
Qed.

(** X3. The application label is the only thing the [app] field changes:
    a document is its metadata up to the display name, then the two
    lines [labels:] / [app: <app>] exactly when [app] is not blank, then
    [spec:] and a rest that does not depend on [app]. *)
Theorem labels_only_for_app (s : SloState) :
  exists rest,
    forall v,
      generateYaml (withApp v s)
      = Ok (str "apiVersion: " ++ apiVersion s ++ eol
            ++ match kind s with
               | SLO => str "kind: SLO"
               | SLI => str "kind: SLI"
               end ++ eol
            ++ str "metadata:" ++ eol
            ++ str "  name: " ++ name s ++ eol
            ++ str "  displayName: " ++ displayName s
            ++ (if blank v then []
                else eol ++ str "  labels:" ++ eol ++ str "    app: " ++ v)
            ++ eol ++ str "spec:" ++ eol ++ rest).
Proof.
  destruct (kind s) eqn:Hk.
  - exists (concat [ str "  description: "; description s; eol;
               str "  service: "; service s; eol;
               str "  budgetingMethod: ";
               showBudgetingMethod (budgetingMethod s); eol;
               str "  objectives:"; eol;
               str "    - displayName: "; displayName s; eol;
               str "      target: "; showNumber (target s); eol;
               str "      timeWindow:"; eol;
               str "        - rolling: "; showBool (timeWindowRolling s); eol;
               str "          count: ";
               numberToString (timeWindowCount s); eol;
               str "          unit: ";
               showTimeWindowUnit (timeWindowUnit s) ]
            ++ nl :: indicatorPart s).
    intros v. rewrite generateYaml_head. f_equal.
    unfold documentHead, indicatorPart. cbn [kind withApp]. rewrite Hk.
    cbn [apiVersion name displayName app description service budgetingMethod
         target timeWindowRolling timeWindowCount timeWindowUnit
         indicatorMode indicatorRef withApp].
    rewrite metadataLabels_spec.
    change (indicatorBody (withApp v s)) with (indicatorBody s).
    cbn [concat]. rewrite <- !app_assoc. reflexivity.
  - exists (concat [ str "  description: "; description s ]
            ++ nl :: indicatorPart s).
    intros v. rewrite generateYaml_head. f_equal.
    unfold documentHead, indicatorPart. cbn [kind withApp]. rewrite Hk.
    cbn [apiVersion name displayName app description withApp].
    rewrite metadataLabels_spec.
    change (indicatorBody (withApp v s)) with (indicatorBody s).
    cbn [concat]. rewrite <- !app_assoc. reflexivity.
Qed.

(** X4. The generator never reads the library id, and the document of an
    SLI is fixed by its api version, name, display name, app,
    description, indicator type and the two metrics: service, budgeting
    method, target, time window and the indicator mode and reference
    play no part in it. *)
Theorem generateYaml_reads (s s' : SloState) :
  apiVersion s = apiVersion s' ->
  name s = name s' ->
  displayName s = displayName s' ->
  app s = app s' ->
  description s = description s' ->
  indicatorType s = indicatorType s' ->
  ratioMetric s = ratioMetric s' ->
  thresholdMetric s = thresholdMetric s' ->
  (kind s = SLI -> kind s' = SLI -> generateYaml s = generateYaml s')
  /\ (forall v, generateYaml (withId v s) = generateYaml s).
Proof.
  intros Hav Hn Hdn Hap Hde Hit Hrm Htm. split.
  - intros Hk Hk'. rewrite !generateYaml_head.
    unfold documentHead, indicatorPart, indicatorBody.
    by rewrite Hk, Hk', Hav, Hn, Hdn, Hap, Hde, Hit, Hrm, Htm.
  - intros v. by rewrite !generateYaml_head.
Qed.

Lemma generateYaml_reads_witness :
  generateYaml (withService (str "other") template_standaloneSli)
  = generateYaml template_standaloneSli.
Proof.
  exact (proj1 (generateYaml_reads
                  (withService (str "other") template_standaloneSli)
                  template_standaloneSli
                  eq_refl eq_refl eq_refl eq_refl eq_refl eq_refl eq_refl
                  eq_refl)
           eq_refl eq_refl).
Defined.

(** X5. An SLO document shows either the reference or the metric, never
    a mix: in reference mode with a non-empty reference name the metric
    fields and the indicator type are not read, and in inline mode the
    reference name is not read. *)
Theorem indicator_reads_one_side (s : SloState) :
  kind s = SLO ->
  (indicatorMode s = reference -> optTruthy (indicatorRef s) = true ->
   forall t rm tm, generateYaml (withMetric t rm tm s) = generateYaml s)
  /\ (indicatorMode s = inline ->
      forall r, generateYaml (withIndicator inline r s) = generateYaml s).
Proof.
  intros Hk. split.
  - intros Hm Hr t rm tm. rewrite !generateYaml_head. f_equal.
    unfold indicatorPart, indicatorSection.
    cbn [kind indicatorMode indicatorRef withMetric].
    by rewrite Hk, Hm, Hr.
  - intros Hm r. rewrite !generateYaml_head. f_equal.
    unfold documentHead, indicatorPart, indicatorSection.
    cbn [kind indicatorMode indicatorRef withIndicator apiVersion name
         displayName app description service budgetingMethod target
         timeWindowRolling timeWindowCount timeWindowUnit].
    by rewrite Hk, Hm.
Qed.

Lemma indicator_reads_one_side_witness :
  generateYaml (withMetric ratio None None template_sliReference)
  = generateYaml template_sliReference.
Proof.
  exact (proj1 (indicator_reads_one_side template_sliReference eq_refl)
           eq_refl eq_refl ratio None None).
Defined.

(** ** The validator and the document together *)

Lemma blank_false_truthy s : blank s = false -> truthy s = true.
Proof. destruct s; [done | reflexivity]. Qed.

(** X6. A configuration without validation errors always has the
    indicator it renders: an SLO in reference mode has a non-blank
    reference name and its document ends in [indicatorRef: <name>];
    otherwise the metric of the selected type is present with a
    non-blank query (for a ratio: total, and good or bad), and for a
    threshold a value that is a Number. *)
Theorem valid_has_indicator (s : SloState) :
  validateState s = ∅ ->
  if isSLO (kind s) && isReference (indicatorMode s) then
    exists ref,
      indicatorRef s = Some ref /\ blank ref = false
      /\ generateYaml s
         = Ok (documentHead s ++ nl :: str "  indicatorRef: " ++ ref)
  else
    match indicatorType s with
    | threshold =>
        exists tm v,
          thresholdMetric s = Some tm
          /\ blank (query (source tm)) = false
          /\ value tm = Val v
    | ratio =>
        exists rm,
          ratioMetric s = Some rm
          /\ blank (query (total rm)) = false
          /\ (blankOpt (query <$> good rm) = false
              \/ blankOpt (query <$> bad rm) = false)
    end.
Proof.
  intros H. rewrite validateState_empty in H.
  pose proof (H RIndicatorRef) as Href.
  pose proof (H RThresholdQuery) as Htq.
  pose proof (H RThresholdValue) as Htv.
  pose proof (H RRatioTotal) as Hrt.
  pose proof (H RRatioGoodBad) as Hgb.
  cbn [breaks] in Href, Htq, Htv, Hrt, Hgb. unfold metricsApply in *.
  destruct (kind s) eqn:Hk, (indicatorMode s) eqn:Hm;
    cbn [isSLO isSLI isInline isReference andb orb] in *.
  1, 3, 4:
    destruct (indicatorType s); cbn [isThreshold isRatio andb] in *;
    [ destruct (ratioMetric s) as [rm |]; [| done]; exists rm;
      cbn in Hrt, Hgb |- *; split; [done |]; split; [done |];
      by apply andb_false_iff in Hgb
    | destruct (thresholdMetric s) as [tm |]; [| done];
      cbn in Htq, Htv; destruct (value tm) as [| | v] eqn:Hv; try done;
      by exists tm, v ].
  destruct (indicatorRef s) as [ref |] eqn:Hr; [| done]. cbn in Href.
  exists ref. split; [done |]. split; [done |].
  rewrite generateYaml_head. unfold indicatorPart, indicatorSection.
  rewrite Hk, Hm, Hr. cbn [isReference optTruthy andb].
  by rewrite (blank_false_truthy _ Href).
Qed.

Lemma valid_has_indicator_witness :
  exists ref,
    indicatorRef template_sliReference = Some ref /\ blank ref = false
    /\ generateYaml template_sliReference
       = Ok (documentHead template_sliReference
             ++ nl :: str "  indicatorRef: " ++ ref).
Proof.
  apply (valid_has_indicator template_sliReference).
  vm_compute; reflexivity.
Defined.

Lemma dashTail_chars t :
  dashTail t = true -> forallb isLowerAlnumDash t = true.
Proof.
  intros (mid & d & -> & Hmid & Hd)%dashTail_spec.
  rewrite forallb_app, Hmid. cbn. by rewrite (isLowerAlnum_dash _ Hd).
Qed.

Lemma dnsLabel_chars s :
  dnsLabel s = true -> forallb isLowerAlnumDash s = true.
Proof.
  destruct s as [| c [| y t]]; [done | |].
  - cbn. intros H. by rewrite (isLowerAlnum_dash _ H).
  - intros [Hc Ht]%andb_true_iff. cbn [forallb].
    rewrite (isLowerAlnum_dash _ Hc). exact (dashTail_chars _ Ht).
Qed.

Lemma isLowerAlnumDash_not_nl c :
  isLowerAlnumDash c = true -> negb (c =? nl)%N = true.
Proof.
  unfold isLowerAlnumDash, isLowerAlnum, nl. intros H.
  apply negb_true_iff, N.eqb_neq. intros ->. discriminate H.
Qed.

Lemma dnsLabel_one_line s :
  dnsLabel s = true -> forallb (fun c => negb (c =? nl)%N) s = true.
Proof.
  intros H%dnsLabel_chars. apply forallb_forall. intros c Hc.
  apply isLowerAlnumDash_not_nl. by apply (proj1 (forallb_forall _ _) H).
Qed.

Lemma no_name_error s :
  validateState s !! "name" = None -> dnsLabel (name s) = true.
Proof.
  change "name" with (ruleKey RName). rewrite validateState_lookup.
  destruct (breaks RName s) eqn:Hb; [done |]. intros _.
  cbn [breaks] in Hb. apply orb_false_iff in Hb as [_ Hb].
  apply negb_false_iff in Hb. by rewrite test_k8sNameRegex in Hb.
Qed.

(** X7. A name the validator accepts cannot break the layout of the
    document: it holds no line break, so after the lines of the api
    version come exactly the lines [kind: ...], [metadata:] and
    [  name: <name>]. *)
Theorem valid_name_on_one_line (s : SloState) :
  validateState s !! "name" = None ->
  exists out rest,
    generateYaml s = Ok out
    /\ lines out
       = lines (str "apiVersion: " ++ apiVersion s)
         ++ [ match kind s with
              | SLO => str "kind: SLO"
              | SLI => str "kind: SLI"
              end;
              str "metadata:";
              str "  name: " ++ name s ]
         ++ rest.
Proof.
  intros Hn%no_name_error%dnsLabel_one_line.
  assert (Hline : lines (str "  name: " ++ name s)
                  = [str "  name: " ++ name s]).
  { apply split_no_sep. by rewrite forallb_app, Hn. }
  rewrite generateYaml_head. unfold documentHead.
  destruct (kind s); eexists; eexists; (split; [reflexivity |]);
    cbn [concat]; unfold eol;
    rewrite <- !app_assoc; cbn [Datatypes.app];
    rewrite (app_assoc (str "apiVersion: ")),
      (app_assoc (str "  name: ")), !lines_app_nl, Hline;
    apply (f_equal (Datatypes.app _));
    [ change (lines (str "kind: SLO")) with [str "kind: SLO"]
    | change (lines (str "kind: SLI")) with [str "kind: SLI"] ];
    change (lines (str "metadata:")) with [str "metadata:"];
    reflexivity.
Qed.

Lemma valid_name_on_one_line_witness :
  exists out rest,
    generateYaml DEFAULT_SLO_STATE = Ok out
    /\ lines out
       = lines (str "apiVersion: " ++ apiVersion DEFAULT_SLO_STATE)
         ++ [ str "kind: SLO"; str "metadata:";
              str "  name: " ++ name DEFAULT_SLO_STATE ]
         ++ rest.
Proof.
  apply (valid_name_on_one_line DEFAULT_SLO_STATE).
  vm_compute; reflexivity.
Defined.

(** ** Which errors can be reported together *)

Ltac key_cases H :=
  repeat (destruct H as [H | H]; [try discriminate H |]);
  try contradiction.

(** X8. An error is only ever reported under one of the ten keys, and
    only where its rule applies: the service, target, time window and
    reference keys for an SLO (the reference key in reference mode
    only), a metric key only for an SLI or an inline SLO, the threshold
    keys only for the threshold type and the ratio keys only for the
    ratio type. *)
Theorem error_key_scope (s : SloState) (k v : string) :
  validateState s !! k = Some v ->
  In k [ "name"; "displayName"; "service"; "target"; "timeWindowCount";
         "indicatorRef"; "thresholdQuery"; "thresholdValue"; "ratioTotal";
         "ratioGoodBad" ]
  /\ (In k ["service"; "target"; "timeWindowCount"; "indicatorRef"] ->
      kind s = SLO)
  /\ (k = "indicatorRef" -> indicatorMode s = reference)
  /\ (In k ["thresholdQuery"; "thresholdValue"; "ratioTotal";
            "ratioGoodBad"] ->
      metricsApply s = true)
  /\ (In k ["thresholdQuery"; "thresholdValue"] ->
      indicatorType s = threshold)
  /\ (In k ["ratioTotal"; "ratioGoodBad"] -> indicatorType s = ratio).
Proof.
  intros (r & <- & Hr)%validateState_lookup_Some.
  destruct r; cbn [breaks] in Hr; cbn [ruleKey];
    (split; [cbn; tauto |]);
    repeat split; intros Hk; try discriminate Hk;
    cbn [In] in Hk; key_cases Hk; clear Hk.
  all: repeat (apply andb_true_iff in Hr as [Hr ?]).
  all: try by destruct (kind s).
  all: try by destruct (indicatorMode s).
  all: try by destruct (indicatorType s).
  all: done.
Qed.

Lemma error_key_scope_witness :
  kind (brokenExample RTarget) = SLO.
Proof.
  refine (proj1 (proj2 (error_key_scope (brokenExample RTarget) "target"
                          "Must be between 0.0 and 1.0" _)) _).
  - vm_compute; reflexivity.
  - cbn; tauto.
Defined.

Lemma blankOpt_query_false (o : option MetricSource) :
  blankOpt (query <$> o) = false <->
  exists src, o = Some src /\ blank (query src) = false.
Proof.
  destruct o as [src |]; cbn; split; try done.
  - intros H. by exists src.
  - by intros (? & [= <-] & ?).
  - by intros (? & ? & _).
Qed.

(** X9. The metric rules, key by key, where metric validation applies.
    For a threshold: no [thresholdQuery] error exactly when the metric
    is present with a non-blank query, and no [thresholdValue] error
    exactly when it is present with a Number as value: any Number, 0 and
    NaN included.  For a ratio: no [ratioTotal] error exactly when the
    metric is present with a non-blank total query, whatever good and
    bad are, and no [ratioGoodBad] error exactly when good or bad is
    present with a non-blank query. *)
Theorem metric_rules (s : SloState) :
  metricsApply s = true ->
  match indicatorType s with
  | threshold =>
      (validateState s !! "thresholdQuery" = None <->
       exists tm, thresholdMetric s = Some tm
                  /\ blank (query (source tm)) = false)
      /\ (validateState s !! "thresholdValue" = None <->
          exists tm x, thresholdMetric s = Some tm /\ value tm = Val x)
  | ratio =>
      (validateState s !! "ratioTotal" = None <->
       exists rm, ratioMetric s = Some rm
                  /\ blank (query (total rm)) = false)
      /\ (validateState s !! "ratioGoodBad" = None <->
          exists rm src,
            ratioMetric s = Some rm
            /\ (good rm = Some src \/ bad rm = Some src)
            /\ blank (query src) = false)
  end.
Proof.
  intros Hm. destruct (indicatorType s) eqn:Ht; split.
  - change "ratioTotal" with (ruleKey RRatioTotal).
    rewrite validateState_lookup. cbn [breaks].
    rewrite Hm, Ht. cbn [isRatio andb].
    destruct (ratioMetric s) as [rm |]; cbn.
    + destruct (blank (query (total rm))) eqn:Hb; split; try done.
      * intros (? & [= <-] & ?). congruence.
      * by exists rm.
    + split; [done |]. by intros (? & ? & _).
  - change "ratioGoodBad" with (ruleKey RRatioGoodBad).
    rewrite validateState_lookup. cbn [breaks].
    rewrite Hm, Ht. cbn [isRatio andb].
    destruct (ratioMetric s) as [rm |]; cbn [mbind option_bind].
    + destruct (blankOpt (query <$> good rm)) eqn:Hg;
        [destruct (blankOpt (query <$> bad rm)) eqn:Hb |];
        cbn [andb]; split; try done.
      * intros (? & src & [= <-] & [H | H] & Hs); rewrite H in *;
          cbn in *; congruence.
      * intros _. apply blankOpt_query_false in Hb as (src & Hb & Hs).
        exists rm, src. by repeat split; [right |].
      * intros _. apply blankOpt_query_false in Hg as (src & Hg & Hs).
        exists rm, src. by repeat split; [left |].
    + split; [done |]. by intros (? & ? & ? & _).
  - change "thresholdQuery" with (ruleKey RThresholdQuery).
    rewrite validateState_lookup. cbn [breaks].
    rewrite Hm, Ht. cbn [isThreshold andb].
    destruct (thresholdMetric s) as [tm |]; cbn.
    + destruct (blank (query (source tm))) eqn:Hb; split; try done.
      * intros (? & [= <-] & ?). congruence.
      * by exists tm.
    + split; [done |]. by intros (? & ? & _).
  - change "thresholdValue" with (ruleKey RThresholdValue).
    rewrite validateState_lookup. cbn [breaks].
    rewrite Hm, Ht. cbn [isThreshold andb].
    destruct (thresholdMetric s) as [tm |]; cbn.
    + destruct (value tm) as [| | x] eqn:Hv; cbn; split; try done.
      * intros (? & ? & [= <-] & ?). congruence.
      * intros (? & ? & [= <-] & ?). congruence.
      * intros _. by exists tm, x.
    + split; [done |]. by intros (? & ? & ? & _).
Qed.

Lemma metric_rules_witness :
  validateState
    (withMetric threshold None
       (Some {| source := prometheus (str "up"); operator := lte;
                value := Val NaN |})
       DEFAULT_SLO_STATE) !! "thresholdValue" = None.
Proof.
  apply (proj2 (metric_rules
                  (withMetric threshold None
                     (Some {| source := prometheus (str "up");
                              operator := lte; value := Val NaN |})
                     DEFAULT_SLO_STATE) eq_refl)).
  eexists; eexists; split; reflexivity.
Defined.

(** ** Export, templates and the indicator type *)

Lemma isValid_spec s : isValid s = true <-> validateState s = ∅.
Proof.
  unfold isValid. rewrite Nat.eqb_eq. apply map_size_empty_iff.
Qed.

Lemma validateState_withId v s : validateState (withId v s) = validateState s.
Proof. reflexivity. Qed.

(** X10. Download and copy do nothing for a configuration with errors;
    for one without, both hand out the document the generator makes of
    that configuration (the generator does not fail on it), and the
    file is named after the configuration: the fallback name
    [config.yaml] is never used, since a valid name is a non-empty DNS
    label. *)
Theorem export_only_when_valid (s : SloState) :
  if isValid s then
    downloadYaml s = Some (name s ++ str ".yaml", generateYaml s)
    /\ copyToClipboard s = Some (generateYaml s)
    /\ (exists out,
          generateYaml s = Ok out
          /\ out = documentHead s ++ nl :: indicatorPart s)
    /\ dnsLabel (name s) = true
  else downloadYaml s = None /\ copyToClipboard s = None.
Proof.
  unfold downloadYaml, copyToClipboard.
  destruct (isValid s) eqn:Hv; cbn [negb]; [| done].
  apply isValid_spec in Hv.
  assert (Hn : dnsLabel (name s) = true)
    by (apply no_name_error; by rewrite Hv).
  split; [| split; [reflexivity |]; split; [| exact Hn]].
  - by destruct (name s).
  - eexists. split; [apply generateYaml_head | reflexivity].
Qed.

Ltac rule_false :=
  lazymatch goal with
  | |- breaks _ _ = false => vm_compute; reflexivity
  end.

(** X11. Loading a template clears the library id and leaves a
    configuration whose only possible errors are the ones the template
    does not cover: the standalone SLI template is valid over any
    previous state, and the three SLO templates are valid exactly when
    the previous service is not blank and the previous time window count
    is a positive integer. *)
Theorem loadTemplate_valid (key : TemplateKey) (prev : SloState) :
  id_ (loadTemplate key prev) = []
  /\ (validateState (loadTemplate key prev) = ∅ <->
      match key with
      | standaloneSli => True
      | _ => blank (service prev) = false
             /\ positiveInteger (timeWindowCount prev) = true
      end).
Proof.
  split; [reflexivity |]. rewrite validateState_empty.
  destruct key; split.
  1, 3, 5:
    intros H; pose proof (H RService) as Hs;
    pose proof (H RTimeWindowCount) as Ht;
    cbn [breaks loadTemplate kind service timeWindowCount TEMPLATES
         p_kind orElse isSLO andb] in Hs, Ht;
    by apply negb_false_iff in Ht.
  1, 2, 3:
    intros [Hs Ht] r; destruct r; try rule_false;
    cbn [breaks loadTemplate kind service timeWindowCount TEMPLATES
         p_kind orElse isSLO andb];
    [exact Hs | by rewrite Ht].
  - done.
  - intros _ r. destruct r; rule_false.
Qed.

Lemma strip_threshold_key rest :
  strip (Some []) (str "thresholdMetric:" ++ rest)
  = str "thresholdMetric:" ++ strip None rest.
Proof. reflexivity. Qed.

Lemma strip_ratio_key rest :
  strip (Some []) (str "ratioMetric:" ++ rest)
  = str "ratioMetric:" ++ strip None rest.
Proof. reflexivity. Qed.

(** X12. Switching the indicator type never loses data and never leaves
    the selected type without a metric: afterwards the type is the
    selected one, its metric is present (a default is filled in when it
    was missing), a metric that was present before is unchanged, the
    indicator body opens with the key of the selected type, and
    selecting the same type again changes nothing. *)
Theorem type_change_keeps_metrics (t : IndicatorType) (s : SloState) :
  indicatorType (handleIndicatorTypeChange t s) = t
  /\ (if isThreshold t
      then defined (thresholdMetric (handleIndicatorTypeChange t s))
      else defined (ratioMetric (handleIndicatorTypeChange t s))) = true
  /\ (forall tm, thresholdMetric s = Some tm ->
                 thresholdMetric (handleIndicatorTypeChange t s) = Some tm)
  /\ (forall rm, ratioMetric s = Some rm ->
                 ratioMetric (handleIndicatorTypeChange t s) = Some rm)
  /\ (exists rest,
        indicatorBody (handleIndicatorTypeChange t s)
        = (if isThreshold t then str "thresholdMetric:"
           else str "ratioMetric:") ++ rest)
  /\ handleIndicatorTypeChange t (handleIndicatorTypeChange t s)
     = handleIndicatorTypeChange t s.
Proof.
  unfold handleIndicatorTypeChange.
  destruct t, (thresholdMetric s) as [tm |] eqn:Htm,
    (ratioMetric s) as [rm |] eqn:Hrm;
    cbn [isThreshold isRatio defined negb andb withMetric indicatorType
         thresholdMetric ratioMetric];
    rewrite ?Htm, ?Hrm; cbn [defined negb andb];
    repeat split; try done.
  all: unfold indicatorBody;
    cbn [isThreshold withMetric indicatorType thresholdMetric ratioMetric];
    rewrite ?Htm, ?Hrm, deleteAll_strip.
  all: first
         [ eexists; unfold ratioBlock; cbn [concat]; apply strip_ratio_key
         | eexists; unfold thresholdBlock; cbn [concat];
           apply strip_threshold_key ].
Qed.

(** ** The ratio editors *)

Lemma indicatorBody_ratio s rm :
  indicatorType s = ratio -> ratioMetric s = Some rm ->
  indicatorBody s = deleteAll flagsGM blankLineRegex (ratioBlock rm).
Proof. intros Ht Hrm. unfold indicatorBody. by rewrite Ht, Hrm. Qed.

(** X13. Once the good query has been edited the entry stays, even when
    the text is cleared again: for a ratio configuration under metric
    validation the document keeps a [good:] line whatever the text is,
    the [ratioGoodBad] error is absent exactly when the text or the bad
    query is not blank, and the [ratioTotal] entry is what it was
    before the edit. *)
Theorem edited_good_stays (v : jsstring) (s : SloState) :
  metricsApply s = true ->
  indicatorType s = ratio ->
  (exists out,
     generateYaml (editGood v s) = Ok out
     /\ In (match kind s with
            | SLI => str "    good:"
            | SLO => str "      good:"
            end) (lines out))
  /\ (validateState (editGood v s) !! "ratioGoodBad" = None <->
      blank v = false
      \/ blankOpt (query <$> (ratioMetric s ≫= bad)) = false)
  /\ validateState (editGood v s) !! "ratioTotal"
     = validateState s !! "ratioTotal".
Proof.
  intros Hm Ht. split; [| split].
  - destruct (In_lines_document (editGood v s) (str "  good:"))
      as (out & Hout & Hin).
    + exact Hm.
    + erewrite indicatorBody_ratio; [| exact Ht | reflexivity].
      by eapply body_good_line.
    + exists out. split; [exact Hout |].
      change (kind (editGood v s)) with (kind s) in Hin.
      by destruct (kind s).
  - change "ratioGoodBad" with (ruleKey RRatioGoodBad).
    rewrite validateState_lookup. cbn [breaks].
    change (metricsApply (editGood v s)) with (metricsApply s).
    rewrite Hm.
    cbn [editGood withRatioMetric withMetric indicatorType ratioMetric].
    rewrite Ht. unfold ratioOrEmpty.
    cbn [isRatio andb mbind option_bind good bad fmap option_fmap
         option_map blankOpt prometheus query].
    destruct (ratioMetric s) as [rm |]; cbn [mbind option_bind bad];
      destruct (blank v); cbn [andb fmap option_fmap option_map blankOpt];
      try destruct (blankOpt (query <$> bad rm)); cbn;
      split; try done; try tauto;
      intros [H | H]; discriminate H.
  - change "ratioTotal" with (ruleKey RRatioTotal).
    rewrite !validateState_lookup. cbn [breaks message].
    change (metricsApply (editGood v s)) with (metricsApply s).
    cbn [editGood withRatioMetric withMetric indicatorType ratioMetric].
    unfold ratioOrEmpty. by destruct (ratioMetric s).
Qed.

Lemma edited_good_stays_witness :
  exists out,
    generateYaml (editGood [] template_standaloneSli) = Ok out
    /\ In (str "    good:") (lines out).
Proof.
  exact (proj1 (edited_good_stays [] template_standaloneSli
                  eq_refl eq_refl)).
Defined.

(** ** The library *)

Lemma strEq_true a b : strEq a b = true <-> a = b.
Proof. apply bool_decide_eq_true. Qed.

Lemma strEq_false a b : strEq a b = false <-> a <> b.
Proof. apply bool_decide_eq_false. Qed.

Lemma strEq_refl a : strEq a a = true.
Proof. by apply strEq_true. Qed.

Lemma findIndex_None {A} (p : A -> bool) l :
  findIndex p l = None <-> Forall (fun x => p x = false) l.
Proof.
  induction l as [| x l IH]; cbn [findIndex].
  - split; [constructor | done].
  - destruct (p x) eqn:Hx.
    + split; [done |]. intros H. inversion H; congruence.
    + destruct (findIndex p l).
      * split; [done |]. intros H. inversion H as [| ? ? _ Hl]; subst.
        by apply IH in Hl.
      * split; [| done]. intros _. constructor; [done |]. by apply IH.
Qed.

Lemma findIndex_Some {A} (p : A -> bool) l i :
  findIndex p l = Some i ->
  exists x, l !! i = Some x /\ p x = true.
Proof.
  revert i. induction l as [| x l IH]; intros i; cbn [findIndex]; [done |].
  destruct (p x) eqn:Hx.
  - intros [= <-]. by exists x.
  - destruct (findIndex p l) as [j |]; [| done].
    intros [= <-]. destruct (IH j eq_refl) as (y & Hy & Hp). by exists y.
Qed.

(** The first index with a given id, in a list without repeated ids. *)
Lemma findIndex_lookup (l : list SloState) i item :
  NoDup (id_ <$> l) ->
  l !! i = Some item ->
  findIndex (fun x => strEq (id_ x) (id_ item)) l = Some i.
Proof.
  revert i. induction l as [| x l IH]; intros i Hnd Hi; [done |].
  rewrite fmap_cons in Hnd. apply NoDup_cons in Hnd as [Hx Hnd].
  cbn [findIndex]. destruct i as [| i].
  - injection Hi as ->. by rewrite strEq_refl.
  - cbn in Hi. destruct (strEq (id_ x) (id_ item)) eqn:He.
    + apply strEq_true in He. exfalso. apply Hx. rewrite He.
      apply list_elem_of_fmap. exists item. split; [done |].
      by eapply list_elem_of_lookup_2.
    + by rewrite (IH i Hnd Hi).
Qed.

Lemma withId_same s : withId (id_ s) s = s.
Proof. by destruct s. Qed.

Lemma withId_withId a b s : withId a (withId b s) = withId a s.
Proof. reflexivity. Qed.

(** The id under which [saveToLibrary] stores the current state. *)
Lemma saveToLibrary_valid uuid st :
  isValid (sloState st) = true ->
  saveToLibrary uuid st
  = let idToUse :=
      if truthy (id_ (sloState st)) then id_ (sloState st) else uuid in
    let item := withId idToUse (sloState st) in
    {| sloState := item;
       savedItems :=
         match findIndex (fun i => strEq (id_ i) idToUse) (savedItems st) with
         | Some i => <[i := item]> (savedItems st)
         | None => savedItems st ++ [item]
         end |}.
Proof. intros H. unfold saveToLibrary. by rewrite H. Qed.

(** X14. Saving: with errors nothing happens.  Without, the current
    state takes its own id, or the fresh one when it has none, and is
    in the library afterwards; every item stored under another id is
    still there; the library grows by one item when no item had that id
    and keeps its length otherwise. *)
Theorem save_stores_item (uuid : jsstring) (st : AppState) :
  if isValid (sloState st) then
    sloState (saveToLibrary uuid st)
    = withId (if truthy (id_ (sloState st)) then id_ (sloState st)
              else uuid) (sloState st)
    /\ In (sloState (saveToLibrary uuid st))
         (savedItems (saveToLibrary uuid st))
    /\ (forall item,
          In item (savedItems st) ->
          id_ item <> id_ (sloState (saveToLibrary uuid st)) ->
          In item (savedItems (saveToLibrary uuid st)))
    /\ length (savedItems (saveToLibrary uuid st))
       = if existsb (fun i => strEq (id_ i)
                                (id_ (sloState (saveToLibrary uuid st))))
              (savedItems st)
         then length (savedItems st)
         else S (length (savedItems st))
  else saveToLibrary uuid st = st.
Proof.
  destruct (isValid (sloState st)) eqn:Hv;
    [| unfold saveToLibrary; by rewrite Hv].
  rewrite (saveToLibrary_valid uuid st Hv). cbn zeta.
  cbn [sloState savedItems].
  set (idToUse := if truthy (id_ (sloState st)) then id_ (sloState st)
                  else uuid).
  set (item := withId idToUse (sloState st)).
  change (id_ item) with idToUse.
  destruct (findIndex _ (savedItems st)) as [i |] eqn:Hi.
  - destruct (findIndex_Some _ _ _ Hi) as (x & Hx & Hp).
    assert (Hlt : i < length (savedItems st))
      by (by eapply lookup_lt_Some).
    repeat split.
    + apply list_elem_of_In. eapply list_elem_of_lookup_2.
      by apply list_lookup_insert_eq.
    + intros y Hy Hne. apply list_elem_of_In in Hy.
      apply list_elem_of_lookup in Hy as [j Hj].
      apply list_elem_of_In. apply (list_elem_of_lookup_2 _ j).
      rewrite list_lookup_insert_ne; [done |]. intros <-.
      rewrite Hx in Hj. injection Hj as <-. by apply strEq_true in Hp.
    + rewrite length_insert.
      assert (He : existsb (fun i0 => strEq (id_ i0) idToUse)
                     (savedItems st) = true).
      { apply existsb_exists. exists x. split; [| done].
        apply list_elem_of_In. by eapply list_elem_of_lookup_2. }
      by rewrite He.
  - apply findIndex_None in Hi. repeat split.
    + apply in_or_app. right. by left.
    + intros y Hy _. apply in_or_app. by left.
    + rewrite length_app. cbn [length].
      assert (He : existsb (fun i0 => strEq (id_ i0) idToUse)
                     (savedItems st) = false).
      { apply not_true_is_false. intros (x & Hx & Hp)%existsb_exists.
        apply list_elem_of_In in Hx.
        rewrite Forall_forall in Hi. by rewrite (Hi x Hx) in Hp. }
      rewrite He. lia.
Qed.

Lemma findIndex_insert {A} (p : A -> bool) l i x :
  findIndex p l = Some i -> p x = true ->
  findIndex p (<[i := x]> l) = Some i.
Proof.
  revert i. induction l as [| y l IH]; intros i; cbn [findIndex]; [done |].
  destruct (p y) eqn:Hy.
  - intros [= <-] Hx. cbn. by rewrite Hx.
  - destruct (findIndex p l) as [j |] eqn:Hj; [| done].
    intros [= <-] Hx.
    change (<[S j := x]> (y :: l)) with (y :: <[j := x]> l).
    cbn [findIndex]. by rewrite Hy, (IH j eq_refl Hx).
Qed.

Lemma findIndex_snoc {A} (p : A -> bool) l x :
  findIndex p l = None -> p x = true ->
  findIndex p (l ++ [x]) = Some (length l).
Proof.
  induction l as [| y l IH]; cbn [findIndex Datatypes.app length].
  - intros _ ->. reflexivity.
  - destruct (p y); [done |].
    destruct (findIndex p l); [done |]. intros _ Hx. by rewrite (IH eq_refl Hx).
Qed.

Lemma insert_snoc {A} (l : list A) x : <[length l := x]> (l ++ [x]) = l ++ [x].
Proof. apply list_insert_id. by rewrite lookup_app_r, Nat.sub_diag. Qed.

(** X15. Saving twice in a row is saving once: after a save of a valid
    state (with a non-empty id, its own or the fresh one) a second save
    changes neither the current state nor the library, whatever fresh
    id it is offered. *)
Theorem save_twice (uuid uuid' : jsstring) (st : AppState) :
  isValid (sloState st) = true ->
  truthy (if truthy (id_ (sloState st)) then id_ (sloState st) else uuid)
  = true ->
  saveToLibrary uuid' (saveToLibrary uuid st) = saveToLibrary uuid st.
Proof.
  intros Hv Hid. rewrite (saveToLibrary_valid uuid st Hv). cbn zeta.
  set (idToUse := if truthy (id_ (sloState st)) then id_ (sloState st)
                  else uuid) in *.
  set (item := withId idToUse (sloState st)).
  rewrite saveToLibrary_valid by exact Hv.
  cbn [sloState savedItems]. change (id_ item) with idToUse.
  rewrite Hid. cbn zeta.
  change (withId idToUse item) with item.
  assert (Hp : strEq (id_ item) idToUse = true) by apply strEq_refl.
  f_equal.
  destruct (findIndex _ (savedItems st)) as [i |] eqn:Hi.
  - rewrite (findIndex_insert _ _ _ item Hi Hp).
    apply list_insert_insert_eq.
  - rewrite (findIndex_snoc _ _ item Hi Hp). apply insert_snoc.
Qed.

Lemma save_twice_witness :
  saveToLibrary (str "b") (saveToLibrary (str "a") initialApp)
  = saveToLibrary (str "a") initialApp.
Proof.
  apply (save_twice (str "a") (str "b") initialApp).
  - vm_compute; reflexivity.
  - reflexivity.
Defined.

Lemma filter_all {A} (P : A -> Prop) `{!forall x, Decision (P x)} l :
  Forall P l -> filter P l = l.
Proof.
  induction 1 as [| x l Hx _ IH]; [reflexivity |].
  by rewrite filter_cons_True, IH.
Qed.

Lemma NoDup_ids_filter (P : SloState -> Prop) `{!forall x, Decision (P x)} l :
  NoDup (id_ <$> l) -> NoDup (id_ <$> filter P l).
Proof.
  induction l as [| x l IH]; [done |].
  rewrite fmap_cons. intros [Hx Hl]%NoDup_cons.
  destruct (decide (P x)).
  - rewrite filter_cons_True by done. rewrite fmap_cons.
    apply NoDup_cons. split; [| by apply IH].
    intros (y & Hy & Hin)%list_elem_of_fmap. apply Hx. rewrite Hy.
    apply list_elem_of_fmap_2. by apply list_elem_of_filter in Hin as [_ ?].
  - rewrite filter_cons_False by done. by apply IH.
Qed.

(** X16. Deleting: when the dialog is declined nothing happens.  When
    it is confirmed, the library afterwards holds exactly the items
    stored under another id, the current state is untouched but for its
    id, and that id is no longer the deleted one (the empty id apart). *)
Theorem delete_removes_id (id : jsstring) (st : AppState) :
  deleteFromLibrary id false st = st
  /\ (forall item,
        In item (savedItems (deleteFromLibrary id true st)) <->
        In item (savedItems st) /\ id_ item <> id)
  /\ withId [] (sloState (deleteFromLibrary id true st))
     = withId [] (sloState st)
  /\ (truthy id = true ->
      id_ (sloState (deleteFromLibrary id true st)) <> id).
Proof.
  split; [reflexivity |]. cbn [deleteFromLibrary sloState savedItems].
  split; [| split].
  - intros item. rewrite <- !list_elem_of_In, list_elem_of_filter.
    rewrite strEq_false. tauto.
  - by destruct (strEq (id_ (sloState st)) id).
  - intros Hid. destruct (strEq (id_ (sloState st)) id) eqn:He.
    + cbn. intros <-. discriminate Hid.
    + by apply strEq_false.
Qed.

Lemma delete_removes_id_witness :
  id_ (sloState (deleteFromLibrary (str "a") true
                   (saveToLibrary (str "a") initialApp))) <> str "a".
Proof.
  exact (proj2 (proj2 (proj2 (delete_removes_id (str "a")
                                (saveToLibrary (str "a") initialApp))))
           eq_refl).
Defined.

(** X17. Saving a new valid state under a fresh id and then deleting that
    id brings back the application state as it was: the library is the
    old one and the current state is again without an id. *)
Theorem save_then_delete (uuid : jsstring) (st : AppState) :
  isValid (sloState st) = true ->
  id_ (sloState st) = [] ->
  truthy uuid = true ->
  Forall (fun i => id_ i <> uuid) (savedItems st) ->
  deleteFromLibrary uuid true (saveToLibrary uuid st) = st.
Proof.
  intros Hv Hid Hu Hfresh. rewrite (saveToLibrary_valid uuid st Hv).
  rewrite Hid. cbn [truthy]. cbn zeta.
  assert (Hi : findIndex (fun i => strEq (id_ i) uuid) (savedItems st)
               = None).
  { apply findIndex_None. eapply Forall_impl; [exact Hfresh |].
    intros x Hx. by apply strEq_false. }
  rewrite Hi. unfold deleteFromLibrary. cbn [sloState savedItems withId id_].
  rewrite strEq_refl, withId_withId, <- Hid, withId_same.
  rewrite filter_app, filter_all.
  - rewrite filter_cons_False, filter_nil, app_nil_r; [by destruct st |].
    cbn [withId id_]. rewrite strEq_refl. done.
  - eapply Forall_impl; [exact Hfresh |]. intros x Hx. by apply strEq_false.
Qed.

Lemma save_then_delete_witness :
  deleteFromLibrary (str "a") true (saveToLibrary (str "a") initialApp)
  = initialApp.
Proof.
  apply (save_then_delete (str "a") initialApp).
  - vm_compute; reflexivity.
  - reflexivity.
  - reflexivity.
  - constructor.
Defined.

(** X18. Loading a saved item and saving it again without a change
    leaves the library as it is, when the item is valid, has an id and
    no two saved items share an id. *)
Theorem load_then_save (uuid : jsstring) (n : nat) (item : SloState)
    (st : AppState) :
  savedItems st !! n = Some item ->
  NoDup (id_ <$> savedItems st) ->
  isValid item = true ->
  truthy (id_ item) = true ->
  saveToLibrary uuid (loadFromLibrary item st) = loadFromLibrary item st.
Proof.
  intros Hn Hnd Hv Hid. rewrite saveToLibrary_valid by exact Hv.
  cbn [loadFromLibrary sloState savedItems]. rewrite Hid. cbn zeta.
  rewrite withId_same, (findIndex_lookup _ n item Hnd Hn).
  by rewrite (list_insert_id _ _ _ Hn).
Qed.

Lemma load_then_save_witness :
  saveToLibrary (str "b")
    (loadFromLibrary (withId (str "a") DEFAULT_SLO_STATE)
       (saveToLibrary (str "a") initialApp))
  = loadFromLibrary (withId (str "a") DEFAULT_SLO_STATE)
      (saveToLibrary (str "a") initialApp).
Proof.
  apply (load_then_save (str "b") 0 (withId (str "a") DEFAULT_SLO_STATE)
           (saveToLibrary (str "a") initialApp)).
  - vm_compute; reflexivity.
  - vm_compute. repeat constructor. by intros H%elem_of_nil.
  - vm_compute; reflexivity.
  - reflexivity.
Defined.

(** ** Sessions *)

Lemma thresholdReady_state f st :
  (forall s, defined (thresholdMetric s) = true ->
             defined (thresholdMetric (f s)) = true) ->
  thresholdReady st ->
  thresholdReady {| sloState := f (sloState st);
                    savedItems := savedItems st |}.
Proof. intros Hf [Hs Hl]. split; [by apply Hf | exact Hl]. Qed.

Lemma handleIndicatorTypeChange_threshold t s :
  defined (thresholdMetric s) = true ->
  defined (thresholdMetric (handleIndicatorTypeChange t s)) = true.
Proof.
  intros H. unfold handleIndicatorTypeChange. rewrite H.
  cbn [negb]. rewrite andb_false_r.
  by destruct (isRatio t && negb (defined (ratioMetric s))).
Qed.

Lemma loadTemplate_threshold key s :
  defined (thresholdMetric s) = true ->
  defined (thresholdMetric (loadTemplate key s)) = true.
Proof.
  intros H. cbn [loadTemplate thresholdMetric].
  by destruct (p_thresholdMetric (TEMPLATES key)).
Qed.

Lemma saveToLibrary_threshold uuid st :
  thresholdReady st -> thresholdReady (saveToLibrary uuid st).
Proof.
  intros [Hs Hl]. unfold saveToLibrary.
  destruct (isValid (sloState st)); cbn [negb]; [| by split].
  split; [exact Hs |]. cbn [savedItems].
  destruct (findIndex _ _) as [i |].
  - by apply Forall_insert.
  - apply Forall_app. split; [exact Hl |]. by constructor.
Qed.

Lemma Forall_filter_keep {A} (Q P : A -> Prop)
    `{!forall x, Decision (P x)} l :
  Forall Q l -> Forall Q (filter P l).
Proof.
  rewrite !Forall_forall. intros HQ x [_ Hx]%list_elem_of_filter.
  by apply HQ.
Qed.

Lemma deleteFromLibrary_threshold id confirmed st :
  thresholdReady st -> thresholdReady (deleteFromLibrary id confirmed st).
Proof.
  intros [Hs Hl]. destruct confirmed; [| by split]. split.
  - cbn. by destruct (strEq (id_ (sloState st)) id).
  - cbn. by apply Forall_filter_keep.
Qed.

Lemma handle_thresholdReady e st :
  thresholdReady st ->
  exists st', handle e st = Next st' /\ thresholdReady st'.
Proof.
  intros Hst. pose proof Hst as [Hs Hl].
  destruct e; cbn [handle onState];
    try (eexists; split; [reflexivity |];
         first [ apply thresholdReady_state; [| exact Hst]; intros s;
                 first [ apply loadTemplate_threshold
                       | apply handleIndicatorTypeChange_threshold
                       | done ]
               | by apply saveToLibrary_threshold
               | by apply deleteFromLibrary_threshold ]; fail).
  - unfold onStateMaybe, editThresholdQuery.
    destruct (thresholdMetric (sloState st)); [| done].
    eexists. split; [reflexivity |]. by split.
  - unfold onStateMaybe, editThresholdOperator.
    destruct (thresholdMetric (sloState st)); [| done].
    eexists. split; [reflexivity |]. by split.
  - unfold onStateMaybe, editThresholdValue.
    destruct (thresholdMetric (sloState st)); [| done].
    eexists. split; [reflexivity |]. by split.
  - destruct (savedItems st !! index) as [item |] eqn:Hi.
    + eexists. split; [reflexivity |]. split; [| exact Hl].
      cbn. rewrite Forall_forall in Hl. apply Hl.
      by eapply list_elem_of_lookup_2.
    + by exists st.
Qed.

(** X19. No sequence of user actions makes an editor of the threshold
    panel fail.  Those editors read [thresholdMetric!] without a check;
    but starting from a state that has a threshold metric, and a
    library whose items have one (the default state with an empty
    library, for one), every event is handled and the threshold metric
    is still there afterwards, in the current state and in every saved
    item. *)
Theorem session_never_fails (events : list event) (st : AppState) :
  thresholdReady st ->
  exists st', run events st = Next st' /\ thresholdReady st'.
Proof.
  revert st. induction events as [| e events IH]; intros st Hst;
    [by exists st |].
  cbn [run]. destruct (handle_thresholdReady e st Hst) as (st1 & -> & H1).
  by apply IH.
Qed.

Lemma session_never_fails_witness :
  exists st',
    run [SetIndicatorType ratio; LoadTemplate standaloneSli;
         SetIndicatorType threshold; EditThresholdQuery (str "up")]
      initialApp = Next st'
    /\ thresholdReady st'.
Proof.
  apply (session_never_fails
           [SetIndicatorType ratio; LoadTemplate standaloneSli;
            SetIndicatorType threshold; EditThresholdQuery (str "up")]
           initialApp).
  split; [reflexivity | constructor].
Defined.

Lemma isValid_withId v s : isValid (withId v s) = isValid s.
Proof. reflexivity. Qed.

Lemma saveToLibrary_libraryOk uuid st :
  libraryOk st -> libraryOk (saveToLibrary uuid st).
Proof.
  intros [Hv Hnd].
  destruct (isValid (sloState st)) eqn:Hs;
    [| unfold saveToLibrary; rewrite Hs; by split].
  rewrite (saveToLibrary_valid uuid st Hs). cbn zeta.
  set (idToUse := if truthy (id_ (sloState st)) then id_ (sloState st)
                  else uuid).
  unfold libraryOk. cbn [savedItems].
  destruct (findIndex _ (savedItems st)) as [i |] eqn:Hi.
  - destruct (findIndex_Some _ _ _ Hi) as (x & Hx & Hp).
    apply strEq_true in Hp. split.
    + by apply Forall_insert.
    + rewrite list_fmap_insert. cbn [withId id_].
      rewrite list_insert_id; [exact Hnd |].
      by rewrite list_lookup_fmap, Hx, <- Hp.
  - apply findIndex_None in Hi. split.
    + apply Forall_app. split; [exact Hv |]. by constructor.
    + rewrite fmap_app. apply NoDup_app. split; [exact Hnd |]. split.
      * intros y (x & -> & Hx)%list_elem_of_fmap Hy.
        cbn in Hy. apply list_elem_of_singleton in Hy.
        rewrite Forall_forall in Hi. specialize (Hi x Hx).
        by apply strEq_false in Hi.
      * cbn. apply NoDup_singleton.
Qed.

Lemma deleteFromLibrary_libraryOk id confirmed st :
  libraryOk st -> libraryOk (deleteFromLibrary id confirmed st).
Proof.
  intros [Hv Hnd]. destruct confirmed; [| by split]. split; cbn.
  - by apply Forall_filter_keep.
  - by apply NoDup_ids_filter.
Qed.

Lemma handle_libraryOk e st st' :
  libraryOk st -> handle e st = Next st' -> libraryOk st'.
Proof.
  intros Hst.
  destruct e; cbn [handle onState];
    try (intros [= <-]; exact Hst).
  - unfold onStateMaybe.
    destruct (editThresholdQuery v (sloState st)); [| done | done].
    by intros [= <-].
  - unfold onStateMaybe.
    destruct (editThresholdOperator v (sloState st)); [| done | done].
    by intros [= <-].
  - unfold onStateMaybe.
    destruct (editThresholdValue v (sloState st)); [| done | done].
    by intros [= <-].
  - intros [= <-]. by apply saveToLibrary_libraryOk.
  - destruct (savedItems st !! index); by intros [= <-].
  - intros [= <-]. by apply deleteFromLibrary_libraryOk.
Qed.

(** X20. The library stays consistent through a session: if every saved
    item is free of validation errors and no two share an id, the same
    holds in every state a sequence of events leads to, whatever state
    the session starts in and whatever fresh ids the saves are given;
    and when the starting state and its saved items have a threshold
    metric the sequence is handled to the end, so that such a state is
    reached. *)
Theorem library_stays_consistent (events : list event) (st : AppState) :
  libraryOk st ->
  (forall st', run events st = Next st' -> libraryOk st')
  /\ (thresholdReady st ->
      exists st', run events st = Next st' /\ libraryOk st').
Proof.
  intros Hl.
  assert (Hinv : forall evs st0 st',
            libraryOk st0 -> run evs st0 = Next st' -> libraryOk st').
  { induction evs as [| e evs IH]; intros st0 st' H0; cbn [run].
    - by intros [= <-].
    - destruct (handle e st0) as [st1 | |] eqn:He; [| done | done].
      apply IH. by eapply handle_libraryOk. }
  split; [intros st'; by apply Hinv |].
  intros Ht. revert st Hl Ht.
  induction events as [| e events IH]; intros st Hl Ht; [by exists st |].
  cbn [run]. destruct (handle_thresholdReady e st Ht) as (st1 & He & H1).
  rewrite He. apply IH; [| exact H1]. by eapply handle_libraryOk.
Qed.

Lemma library_stays_consistent_witness :
  exists st',
    run [SaveItem (str "a"); EditName (str "other"); SaveItem (str "a");
         DeleteItem (str "b") true]
      initialApp = Next st'
    /\ libraryOk st'.
Proof.
  assert (Hl : libraryOk initialApp) by (split; constructor).
  apply (proj2 (library_stays_consistent
                  [SaveItem (str "a"); EditName (str "other");
                   SaveItem (str "a"); DeleteItem (str "b") true]
                  initialApp Hl)).
  split; [reflexivity | constructor].
Defined.

(** ** Switching the kind *)

(** X21. Turning an inline configuration into an SLI never adds an
    error: every error reported after the switch was reported before it,
    with the same message, so a valid inline SLO stays valid as an SLI
    (the metric rules are the same, the SLO rules fall away). *)
Theorem sli_switch_adds_no_error (s : SloState) :
  indicatorMode s = inline ->
  (forall k v,
     validateState (withKind SLI s) !! k = Some v ->
     validateState s !! k = Some v)
  /\ (isValid s = true -> isValid (withKind SLI s) = true).
Proof.
  intros Hm.
  assert (Hstep : forall k v,
            validateState (withKind SLI s) !! k = Some v ->
            validateState s !! k = Some v).
  { intros k v Hk.
    destruct (validateState_lookup_Some _ _ _ Hk) as (r & <- & Hr).
    rewrite validateState_lookup in Hk |- *. rewrite Hr in Hk.
    assert (Hs : breaks r s = true /\ message r (withKind SLI s) = message r s).
    { destruct r; cbn [breaks message] in Hr |- *; try done;
        unfold metricsApply in *;
        cbn [withKind kind indicatorMode indicatorType thresholdMetric
             ratioMetric isSLI isSLO orb andb] in Hr |- *;
        rewrite Hm; cbn [isInline]; rewrite andb_true_r;
        by destruct (kind s). }
    destruct Hs as [-> <-]. exact Hk. }
  split; [exact Hstep |].
  rewrite !isValid_spec. intros Hv. apply map_eq. intros k.
  rewrite lookup_empty.
  destruct (validateState (withKind SLI s) !! k) as [v |] eqn:Hk; [| done].
  apply Hstep in Hk. by rewrite Hv, lookup_empty in Hk.
Qed.

Lemma sli_switch_adds_no_error_witness :
  isValid (withKind SLI DEFAULT_SLO_STATE) = true.
Proof.
  apply (sli_switch_adds_no_error DEFAULT_SLO_STATE eq_refl).
  vm_compute; reflexivity.
Defined.
